(** * AIDA: the pseudocode collector, the request dispatcher and the
      summarize widget

    A shallow embedding of three pieces of the AIDA plugin:

    - [ActionHandler] ([src/backend/Action_Handler.py]): scanning the
      primary pseudocode for [sub_XXX] references and appending the
      decompiled text of every helper;
    - [AIHandler] ([src/backend/AI_Handler.py]): [process_request] and the
      single chat-completion call behind it;
    - [SummarizeWidget] ([src/frontend/Summarize_Widget.py]):
      [set_pseudocode] and the worker thread it owns.

    Conventions of the embedding.

    - A Python [str] is a [string]; every [ascii] stands for the code point
      of the same number, so texts range over U+0000..U+00FF.
    - A Python exception is a value of [exn]; a computation that may raise
      has type [res A].  [exn] stands for the instances of Python's
      [Exception] class, which is what every [except Exception] clause of
      the sources catches.
    - The host (IDA) and the translation service are oracles: records of
      functions that answer or raise.
    - A Python [set] of strings is a [gset string].  Which element
      [set.pop()] hands out depends on the hash table, not on the program:
      it is left open by the parameter [pop_index]. *)

From Stdlib Require Import Ascii String NArith ZArith.
From stdpp Require Import base decidable option list strings gmap.
From Equations Require Import Equations.

Set Warnings "-clear-no-such-hyp".

(** ** Python values: strings, exceptions *)

Module Py.

(** *** Exceptions *)

Inductive exn_class := KeyError | IndexError | RuntimeError | OtherException.

Record exn := Exn { exn_type : exn_class; exn_msg : string }.

(** [str(e)] *)
Definition str (e : exn) : string := exn_msg e.

(** [isinstance(e, RuntimeError)] *)
Definition is_RuntimeError (e : exn) : bool :=
  match exn_type e with RuntimeError => true | _ => false end.

Inductive res (A : Type) : Type :=
| Ok (a : A)
| Raise (e : exn).
Arguments Ok {A} a.
Arguments Raise {A} e.

#[global] Instance res_ret : MRet res := λ A a, Ok a.
#[global] Instance res_bind : MBind res := λ A B f m,
  match m with Ok a => f a | Raise e => Raise e end.
#[global] Instance res_fmap : FMap res := λ A B f m,
  match m with Ok a => Ok (f a) | Raise e => Raise e end.

(** [try: body / except Exception as e: handler e] *)
Definition try_except {A} (body : res A) (handler : exn → res A) : res A :=
  match body with Ok a => Ok a | Raise e => handler e end.

(** *** Characters *)

Definition LF : string := String (ascii_of_nat 10) "".

Definition code_point (c : ascii) : N := N_of_ascii c.

Definition between (lo hi : N) (c : ascii) : bool :=
  (lo <=? code_point c)%N && (code_point c <=? hi)%N.

(** [c.isspace()] below U+0100; the class [\s] of [re] on a [str] pattern is
    the same set. *)
Definition isspace (c : ascii) : bool :=
  between 9 13 c || between 28 32 c
  || (code_point c =? 133)%N || (code_point c =? 160)%N.

(** [c.lower()] below U+0100 *)
Definition lower_char (c : ascii) : ascii :=
  if between 65 90 c || (between 192 222 c && negb (code_point c =? 215)%N)
  then ascii_of_N (code_point c + 32)
  else c.

(** *** Strings *)

(** [bool(s)] *)
Definition truthy (s : string) : bool :=
  match s with "" => false | String _ _ => true end.

(** [s[k:]] and [s[:k]] for [k >= 0] *)
Fixpoint drop_str (k : nat) (s : string) : string :=
  match k, s with
  | S k', String _ s' => drop_str k' s'
  | _, _ => s
  end.

Fixpoint take_str (k : nat) (s : string) : string :=
  match k, s with
  | S k', String c s' => String c (take_str k' s')
  | _, _ => ""
  end.

(** The longest prefix of [s] made of characters in [p], and what follows. *)
Fixpoint span (p : ascii → bool) (s : string) : string * string :=
  match s with
  | "" => ("", "")
  | String c s' =>
      if p c then let '(run, rest) := span p s' in (String c run, rest)
      else ("", s)
  end.

(** [s.startswith(prefix)] *)
Definition startswith (s prefix : string) : bool := String.prefix prefix s.

(** [s.lower()] *)
Fixpoint lower (s : string) : string :=
  match s with
  | "" => ""
  | String c s' => String (lower_char c) (lower s')
  end.

(** [s.lstrip()], [s.rstrip()], [s.strip()] *)
Definition lstrip (s : string) : string := (span isspace s).2.
Definition rstrip (s : string) : string := String.rev (lstrip (String.rev s)).
Definition strip (s : string) : string := rstrip (lstrip s).

(** [sep.join(l)] *)
Fixpoint join (sep : string) (l : list string) : string :=
  match l with
  | [] => ""
  | [x] => x
  | x :: l' => x +:+ sep +:+ join sep l'
  end.

(** [s.replace(old, new)]: the occurrences of [old] are taken from left to
    right and do not overlap. [skip] counts the characters of an occurrence
    that are still to be passed over. *)
Fixpoint replace_from (skip : nat) (old new s : string) : string :=
  match s with
  | "" => ""
  | String c s' =>
      match skip with
      | S k => replace_from k old new s'
      | 0 =>
          if startswith s old
          then new +:+ replace_from (String.length old - 1) old new s'
          else String c (replace_from 0 old new s')
      end
  end.

Fixpoint intersperse (new s : string) : string :=
  match s with
  | "" => new
  | String c s' => new +:+ String c (intersperse new s')
  end.

Definition replace (s old new : string) : string :=
  match old with
  | "" => intersperse new s
  | _ => replace_from 0 old new s
  end.

(** Whether every character of [s] is in the class [p], and whether [s]
    starts with a character of [p] *)
Fixpoint all_chars (p : ascii → bool) (s : string) : bool :=
  match s with
  | "" => true
  | String c s' => p c && all_chars p s'
  end.

Definition head_in (p : ascii → bool) (s : string) : bool :=
  match s with
  | "" => false
  | String c _ => p c
  end.

End Py.

(** ** [Action_Handler.py]: the pseudocode collector *)

Module ActionHandler.
Import Py.

(** *** The two regular expressions *)

(** [[0-9A-Fa-f]] *)
Definition is_hex (c : ascii) : bool :=
  between 48 57 c || between 65 70 c || between 97 102 c.

(** The literal [sub_] at the head of [s]: what follows it. *)
Definition after_sub_ (s : string) : option string :=
  match s with
  | String "s" (String "u" (String "b" (String "_" r))) => Some r
  | _ => None
  end%char.

(** [sub_[0-9A-Fa-f]+] matched at the head of [s]: the text of the match.
    The quantifier is greedy and nothing follows it, so the match takes the
    whole run of hexadecimal digits. *)
Definition match_sub (s : string) : option string :=
  r ← after_sub_ s;
  let digits := (span is_hex r).1 in
  if truthy digits then Some ("sub_" +:+ digits) else None.

(** [findall(r'sub_[0-9A-Fa-f]+', s)]: the matches from left to right; the
    scan resumes where a match ends. [skip] counts the characters of the
    last match that are still to be passed over. *)
Fixpoint findall_from (skip : nat) (s : string) : list string :=
  match s with
  | "" => []
  | String _ s' =>
      match skip with
      | S k => findall_from k s'
      | 0 =>
          match match_sub s with
          | Some m => m :: findall_from (String.length m - 1) s'
          | None => findall_from 0 s'
          end
      end
  end.

Definition findall (s : string) : list string := findall_from 0 s.

(** The lengths a greedy quantifier tries, longest first: [n, ..., lo]. *)
Definition greedy (lo n : nat) : list nat := reverse (seq lo (S n - lo)).

(** [\(] at the head of [s] *)
Definition open_paren (s : string) : bool :=
  match s with String "("%char _ => true | _ => false end.

(** [\s*\(] matched at the head of [s], giving back white space as the
    matcher does when the parenthesis is not found. *)
Definition match_call_tail (s : string) : bool :=
  existsb (λ j, open_paren (drop_str j s))
    (greedy 0 (String.length (span isspace s).1)).

(** [(sub_[0-9A-Fa-f]+)\s*\(] matched at the head of [s]: group 1. The
    digits are tried longest run first, then one digit less, and so on. *)
Definition match_main (s : string) : option string :=
  r ← after_sub_ s;
  k ← List.find (λ k, match_call_tail (drop_str k r))
        (greedy 1 (String.length (span is_hex r).1));
  Some ("sub_" +:+ take_str k r).

(** [search(r'(sub_[0-9A-Fa-f]+)\s*\(', s)]: group 1 of the leftmost match,
    [None] when there is none. *)
Fixpoint search (s : string) : option string :=
  match match_main s with
  | Some g => Some g
  | None =>
      match s with
      | "" => None
      | String _ s' => search s'
      end
  end.

(** [__extract_sub_functions] *)
Definition extract_sub_functions (pseudocode : string) : gset string :=
  list_to_set (findall pseudocode).

(** *** The host *)

(** The four services of the decompiler host that the collector calls, and
    the sentinel [BADADDR]. [get_pseudocode] gives the [line] of every
    [simpleline_t] of the vector. *)
Record Host (func_t cfunc_t : Type) := {
  BADADDR : Z;
  get_name_ea : Z → string → res Z;
  get_func : Z → res (option func_t);
  decompile : func_t → res (option cfunc_t);
  get_pseudocode : cfunc_t → res (list string);
  tag_remove : string → res string;
}.
Arguments BADADDR {_ _} _.
Arguments get_name_ea {_ _} _ _ _.
Arguments get_func {_ _} _ _.
Arguments decompile {_ _} _ _.
Arguments get_pseudocode {_ _} _ _.
Arguments tag_remove {_ _} _ _.

(** [set.pop()]: removes and returns an element; [KeyError] on the empty
    set. [pop_index] says which of the elements the table yields. *)
Definition set_pop (pop_index : gset string → nat) (s : gset string)
    : res (string * gset string) :=
  match elements s !! (pop_index s `mod` size s) with
  | Some x => Ok (x, s ∖ {[x]})
  | None => Raise (Exn KeyError "pop from an empty set")
  end.

(** The local variables of [__get_all_related_pseudocode] that the loop
    reads and writes. [processed] is a ghost: the calls of
    [__get_function_pseudocode] made so far, each with what it returned,
    oldest first. *)
Record locals := Locals {
  result : string;
  collected_funcs : gset string;
  funcs_to_process : gset string;
  processed : list (string * string);
}.

(** [f"\n\n// Function: {current_func}\n{func_code}"]: the separator
    that names the helper, then its text. *)
Definition separator (current_func : string) : string :=
  LF +:+ LF +:+ "// Function: " +:+ current_func +:+ LF.

Definition helper_section (current_func func_code : string) : string :=
  separator current_func +:+ func_code.

(** The calls of a log that gave a text: the ones [if func_code:] lets
    through. *)
Definition sections (log : list (string * string)) : list (string * string) :=
  filter (λ call, truthy call.2) log.

(** The concatenation of a list of strings *)
Definition concat_str (l : list string) : string :=
  foldr String.append "" l.

(** The text that a list of sections adds to the result *)
Definition render (secs : list (string * string)) : string :=
  concat_str ((λ sec, helper_section sec.1 sec.2) <$> secs).

(** The reading of the main reference in the specification: the first
    reference with the opening parenthesis right behind its last digit. *)
Definition match_immediate_call (s : string) : option string :=
  r ← after_sub_ s;
  let '(digits, rest) := span is_hex r in
  if truthy digits && open_paren rest then Some ("sub_" +:+ digits) else None.

Fixpoint first_immediate_call (s : string) : option string :=
  match match_immediate_call s with
  | Some g => Some g
  | None =>
      match s with
      | "" => None
      | String _ s' => first_immediate_call s'
      end
  end.

(** A value together with the proof that it is the value of the expression
    it came from: lets the loop keep [set_pop ... = Ok ...] at hand. *)
Definition inspect {A} (v : A) : {w | v = w} := v ↾ eq_refl.

Lemma set_pop_size pop_index s x rest :
  set_pop pop_index s = Ok (x, rest) → size rest < size s.
Proof.
  unfold set_pop. intros Hpop.
  destruct (elements s !! _) as [y|] eqn:Hy; simplify_eq/=.
  apply subset_size, subset_difference_elem_of.
  by apply elem_of_elements, list_elem_of_lookup_2 with (pop_index s `mod` size s).
Qed.

Section Collector.
Context {func_t cfunc_t : Type}.
Variable ida : Host func_t cfunc_t.
Variable pop_index : gset string → nat.

(** The [for sline in sv] loop of [__get_function_pseudocode] *)
Fixpoint clean_lines (sv : list string) (text : list string)
    : res (list string) :=
  match sv with
  | [] => Ok text
  | sline :: sv' =>
      clean_line ← tag_remove ida sline;
      if truthy (strip clean_line)
      then clean_lines sv' (text ++ [clean_line])
      else clean_lines sv' text
  end.

(** [__get_function_pseudocode]; what it prints is left out. *)
Definition get_function_pseudocode (func_name : string) : res string :=
  try_except
    (func_addr ← get_name_ea ida 0 func_name;
     if decide (func_addr = BADADDR ida) then Ok "" else
     func ← get_func ida func_addr;
     match func with
     | None => Ok ""
     | Some func =>
         cfunc ← decompile ida func;
         match cfunc with
         | None => Ok ""
         | Some cfunc =>
             sv ← get_pseudocode ida cfunc;
             match sv with
             | [] => Ok ""
             | _ :: _ => text ← clean_lines sv []; Ok (join LF text)
             end
         end
     end)
    (λ e, Ok "").

(** The [while funcs_to_process:] loop of [__get_all_related_pseudocode].
    Every turn removes one element of [funcs_to_process] and adds none. *)
Equations? while_loop (st : locals) : res locals
    by wf (size (funcs_to_process st)) lt :=
  while_loop st with decide (funcs_to_process st = ∅) => {
    | left _ := Ok st
    | right _ with inspect (set_pop pop_index (funcs_to_process st)) => {
      | exist _ (Raise e) _ := Raise e
      | exist _ (Ok (current_func, rest)) Hpop
          with decide (current_func ∈ collected_funcs st) => {
        | left _ :=
            while_loop (Locals (result st) (collected_funcs st) rest
                          (processed st))
        | right _ with get_function_pseudocode current_func => {
          | Raise e := Raise e
          | Ok func_code :=
              while_loop
                (Locals
                   (if truthy func_code
                    then result st +:+ helper_section current_func func_code
                    else result st)
                   ({[current_func]} ∪ collected_funcs st)
                   rest
                   (processed st ++ [(current_func, func_code)])) } } } }.
Proof.
  all: simpl; eapply set_pop_size; eauto.
Qed.

(** [__get_all_related_pseudocode] up to the end of its loop *)
Definition run_collector (primary_pseudocode : string) : res locals :=
  let result := primary_pseudocode in
  let collected_funcs : gset string := ∅ in
  let sub_funcs := extract_sub_functions primary_pseudocode in
  let funcs_to_process := sub_funcs in
  let main_func_name := search primary_pseudocode in
  let collected_funcs :=
    match main_func_name with
    | Some name => if truthy name then {[name]} ∪ collected_funcs
                   else collected_funcs
    | None => collected_funcs
    end in
  while_loop (Locals result collected_funcs funcs_to_process []).

(** [__get_all_related_pseudocode] *)
Definition get_all_related_pseudocode (primary_pseudocode : string)
    : res string :=
  result <$> run_collector primary_pseudocode.

(** The helpers decompiled for a primary text, with what each call gave,
    and the ones among them that gave a text. *)
Definition helper_log (primary_pseudocode : string) : list (string * string) :=
  match run_collector primary_pseudocode with
  | Ok st => processed st
  | Raise _ => []
  end.

Definition helper_sections (primary_pseudocode : string)
    : list (string * string) :=
  sections (helper_log primary_pseudocode).

(** The ways in which a reference does not resolve: the lookup gives the
    sentinel, there is no function object, the decompilation fails, or
    one of the host's services raises. *)
Inductive helper_fails (name : string) : Prop :=
| lookup_raises e :
    get_name_ea ida 0 name = Raise e → helper_fails name
| lookup_not_found :
    get_name_ea ida 0 name = Ok (BADADDR ida) → helper_fails name
| get_func_raises ea e :
    get_name_ea ida 0 name = Ok ea →
    get_func ida ea = Raise e → helper_fails name
| no_function_object ea :
    get_name_ea ida 0 name = Ok ea →
    get_func ida ea = Ok None → helper_fails name
| decompile_raises ea func e :
    get_name_ea ida 0 name = Ok ea →
    get_func ida ea = Ok (Some func) →
    decompile ida func = Raise e → helper_fails name
| decompilation_fails ea func :
    get_name_ea ida 0 name = Ok ea →
    get_func ida ea = Ok (Some func) →
    decompile ida func = Ok None → helper_fails name
| get_pseudocode_raises ea func cfunc e :
    get_name_ea ida 0 name = Ok ea →
    get_func ida ea = Ok (Some func) →
    decompile ida func = Ok (Some cfunc) →
    get_pseudocode ida cfunc = Raise e → helper_fails name
| tag_remove_raises ea func cfunc sv sline e :
    get_name_ea ida 0 name = Ok ea →
    get_func ida ea = Ok (Some func) →
    decompile ida func = Ok (Some cfunc) →
    get_pseudocode ida cfunc = Ok sv →
    sline ∈ sv →
    tag_remove ida sline = Raise e → helper_fails name.

End Collector.

End ActionHandler.

(** ** [AI_Handler.py]: the request dispatcher *)

Module AIHandler.
Import Py.

Inductive message :=
| SystemMessage (content : string)
| UserMessage (content : string).

(** What one call of [ChatCompletionsClient.complete] sends: the endpoint
    and the credential of the client, and the arguments of the call. *)
Record ChatRequest := {
  endpoint : string;
  credential : string;
  messages : list message;
  model : string;
  temperature : Z;
  max_tokens : Z;
  top_p : Z;
}.

(** A computation that may call the service: it raises or answers, and
    extends the list of the requests sent so far. *)
Definition net (A : Type) : Type :=
  list ChatRequest → res A * list ChatRequest.

#[global] Instance net_ret : MRet net := λ A a sent, (Ok a, sent).
#[global] Instance net_bind : MBind net := λ A B f m sent,
  match m sent with
  | (Ok a, sent') => f a sent'
  | (Raise e, sent') => (Raise e, sent')
  end.

Definition lift {A} (r : res A) : net A := λ sent, (r, sent).

(** [try: body / except Exception as e: handler e] *)
Definition net_try_except {A} (body : net A) (handler : exn → net A)
    : net A := λ sent,
  match body sent with
  | (Ok a, sent') => (Ok a, sent')
  | (Raise e, sent') => handler e sent'
  end.

(** [choices[0]] *)
Definition first_choice (choices : list string) : res string :=
  match choices with
  | c :: _ => Ok c
  | [] => Raise (Exn IndexError "list index out of range")
  end.

Section Dispatcher.
(** The text of [__SYSTEM_PROMPT]; the dispatcher only substitutes the
    placeholder in it. *)
Variable SYSTEM_PROMPT : string.
(** The service: for a request, the [message.content] of every choice of
    the response, or the exception the call raises. *)
Variable service : ChatRequest → res (list string).

(** [client.complete(...)] *)
Definition complete (req : ChatRequest) : net (list string) :=
  λ sent, (service req, sent ++ [req]).

(** The request of [__process_deepseek]: the client it builds and the
    arguments it passes to [complete] *)
Definition deepseek_request
    (model system_prompt pseudocode api_key target_language : string)
    : ChatRequest := {|
  endpoint := "https://models.inference.ai.azure.com";
  credential := api_key;
  messages :=
    [ SystemMessage system_prompt;
      UserMessage
        ("Translate this IDA Pro decompiled pseudocode to clean, modern "
         +:+ target_language
         +:+ " code. Return ONLY the translated code without any markdown formatting, explanations, or comments. Do NOT use code blocks with backticks. Just output the raw code directly:"
         +:+ LF +:+ LF +:+ pseudocode) ];
  model := model;
  temperature := 0;
  max_tokens := 2048;
  top_p := 1 |}.

(** [__process_deepseek] *)
Definition process_deepseek
    (model system_prompt pseudocode api_key target_language : string)
    : net string :=
  choices ← complete (deepseek_request model system_prompt pseudocode
                        api_key target_language);
  lift (first_choice choices).

(** [process_request]: the statements under its [try] first, then the
    function. A Python function that ends without [return] gives [None]:
    the result is an [option string]. *)
Definition try_body
    (model_name pseudocode target_language api_key : string)
    : net (option string) :=
  let system_prompt :=
    replace SYSTEM_PROMPT "[language_combobox_value]" target_language in
  if startswith (lower model_name) "deepseek"
  then
    content ← process_deepseek model_name system_prompt pseudocode
                api_key target_language;
    mret (Some content)
  else mret None.

Definition process_request
    (model_name pseudocode target_language api_key : string)
    : net (option string) :=
  net_try_except
    (try_body model_name pseudocode target_language api_key)
    (λ e, mret (Some ("Error processing request: " +:+ str e))).

End Dispatcher.

End AIHandler.

(** ** The text of [__SYSTEM_PROMPT] *)

Module Prompt.
Import Py.

Definition DQUOTE : string := String (ascii_of_nat 34) "".

(** The triple-quoted literal of [AIHandler.__init__], line by line *)
Definition SYSTEM_PROMPT : string :=
  LF
  +:+ "            Act as an expert reverse engineer and code translator. Your task is to convert IDA Pro decompiled pseudocode into clean, modern, readable [language_combobox_value] code." +:+ LF
  +:+ "            " +:+ LF
  +:+ "            Key requirements:" +:+ LF
  +:+ "            1. You will receive pseudocode with MULTIPLE FUNCTIONS. The MAIN function is at the TOP, and HELPER functions are BELOW." +:+ LF
  +:+ "            2. You MUST identify each " +:+ DQUOTE +:+ "sub_XXXXXX" +:+ DQUOTE +:+ " call in the main function and REPLACE them with appropriate calls to your translated helper functions." +:+ LF
  +:+ "            3. Create meaningful names for the helper functions based on their behavior." +:+ LF
  +:+ "            4. Your final code MUST contain implementations for ALL helper functions AND properly CALL them from the main function." +:+ LF
  +:+ "            5. Improve readability by using descriptive names and modern syntax." +:+ LF
  +:+ "            6. Replace low-level pointer operations with safer alternatives appropriate for [language_combobox_value]." +:+ LF
  +:+ "            " +:+ LF
  +:+ "            CRITICAL:" +:+ LF
  +:+ "            - When you see a call like " +:+ DQUOTE +:+ "sub_18000F2C0(lpSubKey, Name)" +:+ DQUOTE +:+ " in the main function, you MUST implement the corresponding helper function AND call it with the right parameters." +:+ LF
  +:+ "            - DO NOT reimplement logic in the main function that should be in helper functions." +:+ LF
  +:+ "            - ENSURE all helper functions are properly connected to the main function." +:+ LF
  +:+ "            " +:+ LF
  +:+ "            Example:" +:+ LF
  +:+ "            If the main function calls " +:+ DQUOTE +:+ "sub_1234(a, b)" +:+ DQUOTE +:+ " and below you see " +:+ DQUOTE +:+ "void sub_1234(int* a, char* b)" +:+ DQUOTE +:+ ", you must:" +:+ LF
  +:+ "            1. Create a proper implementatio" +:+ LF
  +:+ "                    print(pseudocode) (e.g., " +:+ DQUOTE +:+ "void processData(int* value, char* text)" +:+ DQUOTE +:+ ")" +:+ LF
  +:+ "            2. Call it appropriately in the main function (e.g., " +:+ DQUOTE +:+ "processData(a, b)" +:+ DQUOTE +:+ ")" +:+ LF
  +:+ "            " +:+ LF
  +:+ "            Your output must be ONLY the translated code with no markdown, explanations, or comments around it." +:+ LF
  +:+ "        ".

(** The placeholder that [process_request] replaces *)
Definition placeholder : string := "[language_combobox_value]".

End Prompt.

(** ** [Summarize_Widget.py]: the display surface and its worker *)

Module SummarizeWidget.
Import Py.

(** The output area: the text it shows. *)
Record QTextEdit := { plainText : string }.

(** The configuration controls of the main widget, as [set_pseudocode]
    reads them: each read answers or raises (the Qt object behind the
    control may be gone). *)
Record MainWidget := {
  model_combo_currentText : res string;
  lang_combo_currentText : res string;
  token_input_text : res string;
}.

(** The coroutine object made by calling [process_request]: the call with
    its arguments, not run yet. *)
Record Coroutine := {
  model_name : string;
  pseudocode : string;
  target_language : string;
  api_key : string;
}.

Record AsyncThread := { coro : Coroutine }.

(** What [set_pseudocode] does to worker threads *)
Inductive effect :=
| Quit (t : AsyncThread)
| Wait (t : AsyncThread)
| Start (t : AsyncThread).

Record widget := Widget {
  stop_flag : bool;
  responseTE : option QTextEdit;
  main_widget : option MainWidget;
  _async_thread : option AsyncThread;
}.

(** [self.responseTE.setPlainText(text)] *)
Definition setPlainText (self : widget) (text : string) : widget :=
  Widget (stop_flag self) (Some {| plainText := text |}) (main_widget self)
    (_async_thread self).

(** [self.main_widget = v] and [self._async_thread = v] *)
Definition set_main_widget (self : widget) (v : option MainWidget) : widget :=
  Widget (stop_flag self) (responseTE self) v (_async_thread self).

Definition set_async_thread (self : widget) (v : option AsyncThread)
    : widget :=
  Widget (stop_flag self) (responseTE self) (main_widget self) v.

(** [_cleanup_thread] *)
Definition _cleanup_thread (self : widget) : widget * list effect :=
  match _async_thread self with
  | Some t => (set_async_thread self None, [Quit t; Wait t])
  | None => (self, [])
  end.

(** The three reads of the configuration, in the order of the source *)
Definition read_configuration (mw : MainWidget)
    : res (string * string * string) :=
  selected_model ← model_combo_currentText mw;
  target_language ← lang_combo_currentText mw;
  api_key ← token_input_text mw;
  Ok (selected_model, target_language, api_key).

(** [set_pseudocode]: the widget afterwards and what was done to threads.
    Under its [try], the reads of the configuration are what may raise;
    the calls on the output area and on the threads are taken to
    succeed. *)
Definition set_pseudocode (self : widget) (code : string)
    : widget * list effect :=
  match responseTE self with
  | None => (self, [])
  | Some _ =>
      let '(self, done) :=
        match _async_thread self with
        | Some _ => _cleanup_thread self
        | None => (self, [])
        end in
      match main_widget self with
      | None =>
          (setPlainText self
             "Plugin widget is not initialized. Press Alt + T first. Then try again",
           done)
      | Some mw =>
          match read_configuration mw with
          | Ok (selected_model, target_language, api_key) =>
              if truthy api_key
              then
                let t := {| coro := {| model_name := selected_model;
                                       pseudocode := code;
                                       target_language := target_language;
                                       api_key := api_key |} |} in
                (set_async_thread self (Some t), done ++ [Start t])
              else (setPlainText self "API key is required", done)
          | Raise e =>
              if is_RuntimeError e
              then
                (set_main_widget
                   (setPlainText self
                      "Plugin widget was closed. Press Alt + T to reopen it. Then try again")
                   None,
                 done)
              else (setPlainText self ("Error: " +:+ str e), done)
          end
      end
  end.

(** What the worker runs once started: its coroutine, that is the call
    of [process_request] it was made with. *)
Definition run_worker (SYSTEM_PROMPT : string)
    (service : AIHandler.ChatRequest → res (list string)) (t : AsyncThread)
    : AIHandler.net (option string) :=
  AIHandler.process_request SYSTEM_PROMPT service
    (model_name (coro t)) (pseudocode (coro t))
    (target_language (coro t)) (api_key (coro t)).

(** [__init__] *)
Definition init (main_widget : option MainWidget) : widget :=
  Widget false None main_widget None.

(** [__on_ai_response] and [__on_ai_error] *)
Definition on_ai_response (self : widget) (response : string)
    : widget * list effect :=
  match responseTE self with
  | Some _ => _cleanup_thread (setPlainText self response)
  | None => (self, [])
  end.

Definition on_ai_error (self : widget) (error : string)
    : widget * list effect :=
  match responseTE self with
  | Some _ => _cleanup_thread (setPlainText self error)
  | None => (self, [])
  end.

(** The calls that reach a widget once it exists: the plugin calls
    [set_pseudocode], the signals of a worker call the two callbacks.
    They run one after the other, on the thread of the interface. *)
Inductive call :=
| SetPseudocode (code : string)
| AiResponse (response : string)
| AiError (error : string).

Definition step (self : widget) (c : call) : widget * list effect :=
  match c with
  | SetPseudocode code => set_pseudocode self code
  | AiResponse response => on_ai_response self response
  | AiError error => on_ai_error self error
  end.

Fixpoint run_calls (self : widget) (cs : list call) : widget * list effect :=
  match cs with
  | [] => (self, [])
  | c :: cs' =>
      let '(self', done) := step self c in
      let '(self'', done') := run_calls self' cs' in
      (self'', done ++ done')
  end.

#[global] Instance Coroutine_eq_dec : EqDecision Coroutine.
Proof. solve_decision. Defined.

#[global] Instance AsyncThread_eq_dec : EqDecision AsyncThread.
Proof. solve_decision. Defined.

(** The workers that a list of effects leaves running: started, and not
    waited for since. *)
Fixpoint remove_first (t : AsyncThread) (l : list AsyncThread)
    : list AsyncThread :=
  match l with
  | [] => []
  | t' :: l' => if decide (t = t') then l' else t' :: remove_first t l'
  end.

Definition live_after (running : list AsyncThread) (e : effect)
    : list AsyncThread :=
  match e with
  | Start t => running ++ [t]
  | Wait t => remove_first t running
  | Quit _ => running
  end.

Definition live (done : list effect) : list AsyncThread :=
  foldl live_after [] done.

End SummarizeWidget.

(** ** [AIDA_Plugin.py]: the windows of the plugin *)

Module AIDAPlugin.
Import Py.

(** The plugin: its summarize windows, oldest first, and its main widget.
    A window in the list is the object the plugin made: what [Show] and
    [set_pseudocode] do to it is seen in the list. *)
Record plugin := Plugin {
  summarize_windows : list SummarizeWidget.widget;
  main_widget : option SummarizeWidget.MainWidget;
}.

(** [chr(n)], for [n] below 256, the code points of the texts here *)
Definition chr (n : nat) : ascii := ascii_of_nat n.

(** The title [open_summarize_widget] gives a window, [count] being the
    length of [summarize_windows] with the new window in it *)
Definition window_title (source_identifier : string) (count : nat) : string :=
  if truthy source_identifier
  then "Summarize-" +:+ source_identifier
  else
    let window_letter := String (chr (65 + count - 1)) "" in
    "Summarize-" +:+ window_letter.

Section Plugin.
(** [new_window.Show(window_title)]: the host makes the form and calls
    [OnCreate], which leaves an output area in the window, or none when a
    call of the interface library fails; or [Show] raises. *)
Variable Show : string → res (option SummarizeWidget.QTextEdit).

(** [open_summarize_widget]: whether it returns, the plugin afterwards,
    and what was done to threads *)
Definition open_summarize_widget
    (self : plugin) (pseudocode source_identifier : string)
    : res () * plugin * list SummarizeWidget.effect :=
  let new_window := SummarizeWidget.init (main_widget self) in
  let count := length (summarize_windows self ++ [new_window]) in
  let window_title := window_title source_identifier count in
  match Show window_title with
  | Raise e =>
      (Raise e,
       Plugin (summarize_windows self ++ [new_window]) (main_widget self),
       [])
  | Ok output =>
      let new_window :=
        SummarizeWidget.Widget (SummarizeWidget.stop_flag new_window) output
          (SummarizeWidget.main_widget new_window)
          (SummarizeWidget._async_thread new_window) in
      let '(new_window, done) :=
        if truthy pseudocode
        then SummarizeWidget.set_pseudocode new_window pseudocode
        else (new_window, []) in
      (Ok (),
       Plugin (summarize_windows self ++ [new_window]) (main_widget self),
       done)
  end.

End Plugin.

(** [__open_main_widget], as [run] calls it: the main widget is made
    once. [made] is the widget [MainWidget()] would give. *)
Definition open_main_widget (made : SummarizeWidget.MainWidget)
    (self : plugin) : plugin :=
  match main_widget self with
  | None => Plugin (summarize_windows self) (Some made)
  | Some _ => self
  end.

End AIDAPlugin.

(** ** [Action_Handler.py]: the action *)

Module Activation.
Import Py ActionHandler.

(** [[A-Za-z0-9]] *)
Definition is_alnum (c : ascii) : bool :=
  between 48 57 c || between 65 90 c || between 97 122 c.

(** [Pseudocode-([A-Za-z0-9]+)] matched at the head of [s]: group 1 *)
Definition match_title (s : string) : option string :=
  if startswith s "Pseudocode-"
  then
    let run := (span is_alnum (drop_str 11 s)).1 in
    if truthy run then Some run else None
  else None.

(** [search(r'Pseudocode-([A-Za-z0-9]+)', s)]: group 1 of the leftmost
    match *)
Fixpoint search_title (s : string) : option string :=
  match match_title s with
  | Some g => Some g
  | None =>
      match s with
      | "" => None
      | String _ s' => search_title s'
      end
  end.

(** What [activate] asks the interface of the host. A decompiler view
    [vu] is given by its [cfunc], which may be missing. *)
Record Ui (widget_t cfunc_t : Type) := {
  get_current_widget : res widget_t;
  get_widget_vdui : widget_t → res (option (option cfunc_t));
  get_widget_title : widget_t → res (option string);
}.
Arguments get_current_widget {_ _} _.
Arguments get_widget_vdui {_ _} _ _.
Arguments get_widget_title {_ _} _ _.

Section Activation.
Context {widget_t func_t cfunc_t : Type}.
Variable ui : Ui widget_t cfunc_t.
Variable ida : Host func_t cfunc_t.
Variable pop_index : gset string → nat.
Variable Show : string → res (option SummarizeWidget.QTextEdit).

(** [__get_clean_pseudocode]; [vu.cfunc] may be [None], and then
    [cfunc.get_pseudocode] raises. *)
Definition get_clean_pseudocode (vu : option cfunc_t) : res string :=
  try_except
    (cfunc ← match vu with
             | Some cfunc => Ok cfunc
             | None =>
                 Raise (Exn OtherException
                          "'NoneType' object has no attribute 'get_pseudocode'")
             end;
     sv ← get_pseudocode ida cfunc;
     match sv with
     | [] => Ok ""
     | _ :: _ => text ← clean_lines ida sv []; Ok (join LF text)
     end)
    (λ e, Ok "").

(** The identifier [activate] reads in the title of the source window *)
Definition title_identifier (source_window_title : option string) : string :=
  match source_window_title with
  | Some title =>
      if truthy title
      then match search_title title with
           | Some g => g
           | None => ""
           end
      else ""
  | None => ""
  end.

(** The statements under the [try] of [activate]: the plugin afterwards
    and what was done to threads, whether they end or raise. *)
Definition activate_body (plugin : AIDAPlugin.plugin) (widget : widget_t)
    (vu : option cfunc_t)
    : res () * AIDAPlugin.plugin * list SummarizeWidget.effect :=
  match get_widget_title ui widget with
  | Raise e => (Raise e, plugin, [])
  | Ok source_window_title =>
      let identifier := title_identifier source_window_title in
      match get_clean_pseudocode vu with
      | Raise e => (Raise e, plugin, [])
      | Ok primary_pseudocode =>
          if truthy primary_pseudocode
          then
            match get_all_related_pseudocode ida pop_index
                    primary_pseudocode with
            | Raise e => (Raise e, plugin, [])
            | Ok complete_pseudocode =>
                AIDAPlugin.open_summarize_widget Show plugin
                  complete_pseudocode identifier
            end
          else (Ok (), plugin, [])
      end
  end.

(** [activate]: what it returns, the plugin afterwards and what was done
    to threads; it raises when one of the two calls before its [try]
    does. *)
Definition activate (plugin : AIDAPlugin.plugin)
    : res (Z * AIDAPlugin.plugin * list SummarizeWidget.effect) :=
  widget ← get_current_widget ui;
  vu ← get_widget_vdui ui widget;
  match vu with
  | Some vu =>
      let '(_, plugin, done) := activate_body plugin widget vu in
      Ok (1%Z, plugin, done)
  | None => Ok (1%Z, plugin, [])
  end.

End Activation.

End Activation.

(** ** Concrete hosts, services and widgets, for the examples *)

Module Fixtures.
Import Py.

(** A host in which every name resolves to the same two lines, except
    [sub_dead], which the symbol table does not know. *)
Definition demo_ida : ActionHandler.Host unit unit := {|
  ActionHandler.BADADDR := -1;
  ActionHandler.get_name_ea := λ _ name,
    if decide (name = "sub_dead") then Ok (-1)%Z else Ok 4096%Z;
  ActionHandler.get_func := λ _, Ok (Some ());
  ActionHandler.decompile := λ _, Ok (Some ());
  ActionHandler.get_pseudocode := λ _, Ok ["void helper()"; "{ sub_99(); }"];
  ActionHandler.tag_remove := λ sline, Ok sline;
|}.

(** [set.pop()] giving the first element of [elements] *)
Definition pop_first : gset string → nat := λ _, 0.

(** A service that answers every request with one choice *)
Definition demo_service : AIHandler.ChatRequest → res (list string) :=
  λ _, Ok ["translated"].

(** A service that refuses every request *)
Definition failing_service : AIHandler.ChatRequest → res (list string) :=
  λ _, Raise (Exn OtherException "401 Unauthorized").

(** A service whose responses have no choice *)
Definition silent_service : AIHandler.ChatRequest → res (list string) :=
  λ _, Ok [].

(** A main widget with a model and a language chosen and no credential *)
Definition no_credential : SummarizeWidget.MainWidget := {|
  SummarizeWidget.model_combo_currentText := Ok "DeepSeek-V3";
  SummarizeWidget.lang_combo_currentText := Ok "C++";
  SummarizeWidget.token_input_text := Ok "";
|}.

(** A summarize widget that is shown, and one that is not yet *)
Definition shown : SummarizeWidget.widget :=
  SummarizeWidget.Widget false
    (Some {| SummarizeWidget.plainText := "" |}) (Some no_credential) None.

Definition not_shown : SummarizeWidget.widget :=
  SummarizeWidget.Widget false None (Some no_credential) None.

End Fixtures.

Module MoreFixtures.
Import Py.

(** A host whose decompiler gives blank lines among the others *)
Definition blank_lines_ida : ActionHandler.Host unit unit := {|
  ActionHandler.BADADDR := -1;
  ActionHandler.get_name_ea := λ _ _, Ok 4096%Z;
  ActionHandler.get_func := λ _, Ok (Some ());
  ActionHandler.decompile := λ _, Ok (Some ());
  ActionHandler.get_pseudocode := λ _, Ok ["int f()"; "   "; "{"; ""; "}"];
  ActionHandler.tag_remove := λ sline, Ok sline;
|}.

(** A widget that shows an earlier answer and owns a worker *)
Definition has_worker : SummarizeWidget.widget :=
  SummarizeWidget.Widget false
    (Some {| SummarizeWidget.plainText := "old" |})
    (Some {| SummarizeWidget.model_combo_currentText := Ok "DeepSeek-V3";
             SummarizeWidget.lang_combo_currentText := Ok "Rust";
             SummarizeWidget.token_input_text := Ok "key" |})
    (Some {| SummarizeWidget.coro :=
               {| SummarizeWidget.model_name := "DeepSeek-V3";
                  SummarizeWidget.pseudocode := "int g();";
                  SummarizeWidget.target_language := "Go";
                  SummarizeWidget.api_key := "key" |} |}).

(** A main widget whose Qt objects are gone, and a widget that still
    refers to it *)
Definition closed_main : SummarizeWidget.MainWidget := {|
  SummarizeWidget.model_combo_currentText :=
    Raise (Exn RuntimeError
             "wrapped C/C++ object of type QComboBox has been deleted");
  SummarizeWidget.lang_combo_currentText := Ok "C++";
  SummarizeWidget.token_input_text := Ok "key";
|}.

Definition stale : SummarizeWidget.widget :=
  SummarizeWidget.Widget false
    (Some {| SummarizeWidget.plainText := "" |}) (Some closed_main) None.

(** A widget with an output area and a main widget ready to dispatch *)
Definition ready : SummarizeWidget.widget :=
  SummarizeWidget.Widget false
    (Some {| SummarizeWidget.plainText := "" |})
    (SummarizeWidget.main_widget has_worker) None.

(** An interface in which the current widget is the decompiler view
    [Pseudocode-A], a [Show] that always leaves an output area, a plugin
    whose main widget is ready and one that has none yet *)
Definition demo_ui : Activation.Ui unit unit := {|
  Activation.get_current_widget := Ok ();
  Activation.get_widget_vdui := λ _, Ok (Some (Some ()));
  Activation.get_widget_title := λ _, Ok (Some "Pseudocode-A");
|}.

Definition demo_show : string → res (option SummarizeWidget.QTextEdit) :=
  λ _, Ok (Some {| SummarizeWidget.plainText := "" |}).

Definition demo_plugin : AIDAPlugin.plugin :=
  AIDAPlugin.Plugin [] (SummarizeWidget.main_widget has_worker).

Definition fresh_plugin : AIDAPlugin.plugin := AIDAPlugin.Plugin [] None.

End MoreFixtures.

(** * Properties *)

(** ** Strings *)

Module PyFacts.
Import Py.

Lemma str_app_cons c s t : String c s +:+ t = String c (s +:+ t).
Proof. reflexivity. Qed.

Lemma str_app_nil_r s : s +:+ "" = s.
Proof. induction s as [|c s IH]; [done|]. by rewrite str_app_cons, IH. Qed.

Lemma str_app_assoc s t u : (s +:+ t) +:+ u = s +:+ t +:+ u.
Proof. induction s as [|c s IH]; [done|]. by rewrite !str_app_cons, IH. Qed.

Lemma prefix_str_app s t : String.prefix s (s +:+ t) = true.
Proof.
  induction s as [|c s IH]; [by destruct t|].
  rewrite str_app_cons. simpl. by destruct (ascii_dec c c).
Qed.

Lemma truthy_true s : truthy s = true ↔ s ≠ "".
Proof. by destruct s. Qed.

Lemma truthy_false s : truthy s = false ↔ s = "".
Proof. by destruct s. Qed.

Lemma drop_str_nil k : drop_str k "" = "".
Proof. by destruct k. Qed.

Lemma try_except_ok {A} (body : res A) (handler : exn → res A) :
  (∀ e, ∃ a, handler e = Ok a) → ∃ a, try_except body handler = Ok a.
Proof. intros Hh. destruct body as [a|e]; simpl; eauto. Qed.

End PyFacts.

(** ** The collector *)

Module CollectorFacts.
Import Py PyFacts ActionHandler.

(** *** The regular expressions *)

Lemma match_sub_truthy s g : match_sub s = Some g → truthy g = true.
Proof.
  unfold match_sub. destruct (after_sub_ s) as [r|]; simpl; [|done].
  destruct (truthy _); [|done]. by intros [= <-].
Qed.

Lemma match_main_truthy s g : match_main s = Some g → truthy g = true.
Proof.
  unfold match_main. destruct (after_sub_ s) as [r|]; simpl; [|done].
  destruct (List.find _ _); simpl; [|done]. by intros [= <-].
Qed.

Lemma search_truthy s g : search s = Some g → truthy g = true.
Proof.
  induction s as [|c s IH]; simpl; [done|].
  destruct (match_main (String c s)) eqn:E; [|done].
  intros [= <-]. by eapply match_main_truthy.
Qed.

(** A text none of whose positions starts a reference has no match. *)
Lemma findall_from_no_match s skip :
  (∀ k, match_sub (drop_str k s) = None) → findall_from skip s = [].
Proof.
  revert skip. induction s as [|c s IH]; intros skip Hs; [done|].
  assert (∀ k, match_sub (drop_str k s) = None) as Hs'
    by (intros k; apply (Hs (S k))).
  simpl. destruct skip as [|skip]; [|by apply IH].
  specialize (Hs 0). simpl in Hs. rewrite Hs. by apply IH.
Qed.

Lemma findall_no_match s :
  (∀ k, match_sub (drop_str k s) = None) → findall s = [].
Proof. apply findall_from_no_match. Qed.

(** **** Runs of characters *)

Lemma span_length_drop p r k :
  k < String.length (span p r).1 →
  ∃ c rest, drop_str k r = String c rest ∧ p c = true.
Proof.
  revert k. induction r as [|c r IH]; intros k; simpl; [lia|].
  destruct (p c) eqn:Hc; [|simpl; lia].
  destruct (span p r) as [run rest] eqn:Hspan. simpl in *.
  destruct k as [|k]; [by eauto|]. intros Hk. apply IH. lia.
Qed.

Lemma take_str_span p r :
  take_str (String.length (span p r).1) r = (span p r).1.
Proof.
  induction r as [|c r IH]; simpl; [done|].
  destruct (p c); [|done].
  destruct (span p r) as [run rest]. simpl in *. by rewrite IH.
Qed.

Lemma is_hex_not_space c : is_hex c = true → isspace c = false.
Proof. by destruct c as [[] [] [] [] [] [] [] []]. Qed.

Lemma is_hex_not_paren c : is_hex c = true → c ≠ "("%char.
Proof. by intros Hc ->. Qed.

Lemma is_hex_not_s c : is_hex c = true → c ≠ "s"%char.
Proof. by intros Hc ->. Qed.

Lemma elem_of_greedy lo n k : k ∈ greedy lo n ↔ lo ≤ k ≤ n.
Proof. unfold greedy. rewrite elem_of_reverse, elem_of_seq. lia. Qed.

(** **** Giving back digits never helps *)

(** After a digit there is neither white space nor a parenthesis. *)
Lemma match_call_tail_digit c rest :
  is_hex c = true → match_call_tail (String c rest) = false.
Proof.
  intros Hc. unfold match_call_tail. simpl.
  rewrite (is_hex_not_space c Hc). simpl.
  destruct (ascii_dec c "(") as [->|Hne]; [done|].
  destruct c as [[] [] [] [] [] [] [] []]; done.
Qed.

(** So group 1 of the second expression is a match of the first: the
    whole run of digits. *)
Lemma match_main_sub s g : match_main s = Some g → match_sub s = Some g.
Proof.
  unfold match_main, match_sub.
  destruct (after_sub_ s) as [r|]; simpl; [|done].
  destruct (List.find _ _) as [k|] eqn:Hfind; simpl; [|done].
  intros [= <-]. apply List.find_some in Hfind as [Hk Htail].
  apply list_elem_of_In, elem_of_greedy in Hk.
  destruct (decide (k < String.length (span is_hex r).1)) as [Hlt|Hge].
  { destruct (span_length_drop _ _ _ Hlt) as (c & rest & Hdrop & Hc).
    rewrite Hdrop, (match_call_tail_digit c rest Hc) in Htail. done. }
  assert (k = String.length (span is_hex r).1) as -> by lia.
  rewrite take_str_span.
  destruct (span is_hex r).1; [simpl in *; lia|done].
Qed.

(** **** The matches of [findall] *)

Lemma search_position s g :
  search s = Some g → ∃ k, match_main (drop_str k s) = Some g.
Proof.
  induction s as [|c s IH]; simpl; [done|].
  destruct (match_main (String c s)) as [g'|] eqn:Hhere.
  - intros [= <-]. by exists 0.
  - intros [k Hk]%IH. by exists (S k).
Qed.

Lemma after_sub__inv s r :
  after_sub_ s = Some r →
  s = String "s" (String "u" (String "b" (String "_" r))).
Proof.
  destruct s as [|c0 s]; [done|].
  destruct c0 as [[] [] [] [] [] [] [] []]; try done.
  destruct s as [|c1 s]; [done|].
  destruct c1 as [[] [] [] [] [] [] [] []]; try done.
  destruct s as [|c2 s]; [done|].
  destruct c2 as [[] [] [] [] [] [] [] []]; try done.
  destruct s as [|c3 s]; [done|].
  destruct c3 as [[] [] [] [] [] [] [] []]; try done.
  simpl. by intros [= ->].
Qed.

(** No reference starts inside a reference. *)
Lemma match_sub_inside s m i :
  match_sub s = Some m → 0 < i < String.length m →
  match_sub (drop_str i s) = None.
Proof.
  unfold match_sub at 1.
  destruct (after_sub_ s) as [r|] eqn:Hsub; simpl; [|done].
  apply after_sub__inv in Hsub as ->.
  destruct (truthy (span is_hex r).1) eqn:Hdigits; [|done].
  intros [= <-].
  change (String.length ("sub_" +:+ (span is_hex r).1))
    with (4 + String.length (span is_hex r).1).
  intros Hi. do 4 (destruct i as [|i]; [done || lia|]).
  destruct (span_length_drop is_hex r i) as (c & rest & Hdrop & Hc); [lia|].
  simpl. rewrite Hdrop. unfold match_sub.
  destruct (ascii_dec c "s") as [->|Hne]; [done|].
  destruct c as [[] [] [] [] [] [] [] []]; done.
Qed.

Lemma findall_from_complete s skip k g :
  (∀ i, i < skip → match_sub (drop_str i s) = None) →
  match_sub (drop_str k s) = Some g → g ∈ findall_from skip s.
Proof.
  revert skip k. induction s as [|c s IH]; intros skip k Hskip Hk.
  { rewrite drop_str_nil in Hk. done. }
  simpl. destruct skip as [|skip].
  - destruct (match_sub (String c s)) as [m|] eqn:Hhere.
    + destruct k as [|k]; [simpl in Hk; simplify_eq/=; left|].
      right. apply (IH _ k); [|done].
      intros i Hi. apply (match_sub_inside _ _ (S i) Hhere). lia.
    + destruct k as [|k]; [simpl in Hk; congruence|].
      apply (IH _ k); [lia|done].
  - destruct k as [|k].
    { rewrite (Hskip 0) in Hk by lia. done. }
    apply (IH _ k); [|done]. intros i Hi. apply (Hskip (S i)). lia.
Qed.

Lemma findall_from_sound s skip g :
  g ∈ findall_from skip s → ∃ k, match_sub (drop_str k s) = Some g.
Proof.
  revert skip. induction s as [|c s IH]; intros skip; simpl.
  { by intros ?%elem_of_nil. }
  destruct skip as [|skip].
  - destruct (match_sub (String c s)) as [m|] eqn:Hhere.
    + intros [->|[k Hk]%IH]%elem_of_cons; [by exists 0|by exists (S k)].
    + intros [k Hk]%IH. by exists (S k).
  - intros [k Hk]%IH. by exists (S k).
Qed.

(** [findall] gives the references that start at some position of the
    text, each with all its digits. *)
Lemma elem_of_findall s g :
  g ∈ findall s ↔ ∃ k, match_sub (drop_str k s) = Some g.
Proof.
  split; [apply findall_from_sound|].
  intros [k Hk]. apply (findall_from_complete s 0 k); [lia|done].
Qed.

(** The main reference is one of the references [findall] gives. *)
Lemma search_findall s g : search s = Some g → g ∈ findall s.
Proof.
  intros [k Hk%match_main_sub]%search_position. apply elem_of_findall. eauto.
Qed.

(** **** [set.pop()] *)

(** [pop_index] leaves the choice of [set.pop()] open: every element of a
    set is the one popped for some index. *)
Lemma set_pop_any (s : gset string) x :
  x ∈ s → ∃ i, set_pop (λ _, i) s = Ok (x, s ∖ {[x]}).
Proof.
  intros [i Hi]%elem_of_elements%list_elem_of_lookup_1. exists i.
  unfold set_pop. apply lookup_lt_Some in Hi as Hlt.
  replace (i `mod` size s) with i; [by rewrite Hi|].
  symmetry. by apply Nat.mod_small.
Qed.

(** *** The lookup of one helper *)

Section Facts.
Context {func_t cfunc_t : Type}.
Variable ida : Host func_t cfunc_t.
Variable pop_index : gset string → nat.

Abbreviation get_function_pseudocode := (get_function_pseudocode ida).
Abbreviation while_loop := (while_loop ida pop_index).
Abbreviation run_collector := (run_collector ida pop_index).
Abbreviation get_all_related_pseudocode :=
  (get_all_related_pseudocode ida pop_index).
Abbreviation helper_log := (helper_log ida pop_index).
Abbreviation helper_sections := (helper_sections ida pop_index).
Abbreviation helper_fails := (helper_fails ida).

Lemma get_function_pseudocode_returns name :
  ∃ body, get_function_pseudocode name = Ok body.
Proof. apply try_except_ok. eauto. Qed.

Lemma clean_lines_raises sv text sline e :
  sline ∈ sv → tag_remove ida sline = Raise e →
  ∃ e', clean_lines ida sv text = Raise e'.
Proof.
  revert text. induction sv as [|l sv IH]; intros text Hin Hraise.
  - by apply elem_of_nil in Hin.
  - simpl. apply elem_of_cons in Hin as [<-|Hin].
    + rewrite Hraise. simpl. eauto.
    + destruct (tag_remove ida l) as [clean_line|e0]; simpl; [|eauto].
      destruct (truthy _); eauto.
Qed.

Lemma helper_fails_empty name :
  helper_fails name → get_function_pseudocode name = Ok "".
Proof.
  unfold ActionHandler.get_function_pseudocode.
  destruct 1 as [e He|He|ea e He Hf|ea He Hf|ea f e He Hf Hd|ea f He Hf Hd
                |ea f cf e He Hf Hd Hp|ea f cf sv sline e He Hf Hd Hp Hin Ht];
    rewrite He; simpl; try done.
  1: by destruct (decide _).
  all: destruct (decide _); [done|]; rewrite Hf; simpl; try done.
  all: rewrite Hd; simpl; try done.
  all: rewrite Hp; simpl; try done.
  destruct sv as [|l sv]; [done|].
  destruct (clean_lines_raises (l :: sv) [] sline e Hin Ht) as [e' ->].
  done.
Qed.

(** *** The loop *)

Lemma while_loop_unfold st :
  while_loop st =
    if decide (funcs_to_process st = ∅) then Ok st else
    match set_pop pop_index (funcs_to_process st) with
    | Raise e => Raise e
    | Ok (current_func, rest) =>
        if decide (current_func ∈ collected_funcs st)
        then while_loop
               (Locals (result st) (collected_funcs st) rest (processed st))
        else
          match get_function_pseudocode current_func with
          | Raise e => Raise e
          | Ok func_code =>
              while_loop
                (Locals
                   (if truthy func_code
                    then result st +:+ helper_section current_func func_code
                    else result st)
                   ({[current_func]} ∪ collected_funcs st)
                   rest
                   (processed st ++ [(current_func, func_code)]))
          end
    end.
Proof.
  funelim (while_loop st); try rewrite <- Heqcall;
    repeat match goal with
           | H : decide _ = _ |- _ => rewrite H
           | H : set_pop _ _ = _ |- _ => rewrite H
           | H : ActionHandler.get_function_pseudocode _ _ = _ |- _ =>
               rewrite H
           end; reflexivity.
Qed.

(** [set.pop()] on a set that is not empty gives one of its elements and
    the set without it. *)
Lemma set_pop_nonempty s :
  s ≠ ∅ → ∃ x, x ∈ s ∧ set_pop pop_index s = Ok (x, s ∖ {[x]}).
Proof.
  intros Hs. unfold set_pop.
  assert (size s ≠ 0) as Hsize by (by intros ?%size_empty_inv%leibniz_equiv).
  destruct (lookup_lt_is_Some_2 (elements s) (pop_index s `mod` size s))
    as [x Hx].
  { unfold size, set_size in *. simpl in *. by apply Nat.mod_upper_bound. }
  rewrite Hx. exists x. split; [|done].
  by eapply elem_of_elements, list_elem_of_lookup_2.
Qed.

Lemma render_cons name body secs :
  render ((name, body) :: secs) = helper_section name body +:+ render secs.
Proof. reflexivity. Qed.

Lemma sections_cons name body log :
  sections ((name, body) :: log) =
    if truthy body then (name, body) :: sections log else sections log.
Proof.
  unfold sections. rewrite filter_cons. simpl.
  destruct (truthy body); by case_decide.
Qed.

(** What the loop does from any state: it returns, having emptied
    [funcs_to_process]; the helpers it decompiles are the pending
    references not yet collected, each once, and the result grows by the
    sections of those that gave a text. *)
Lemma while_loop_spec st :
  ∃ new,
    while_loop st =
      Ok (Locals (result st +:+ render (sections new))
            (list_to_set new.*1 ∪ collected_funcs st) ∅
            (processed st ++ new))
    ∧ NoDup new.*1
    ∧ (∀ name, name ∈ new.*1 ↔
         name ∈ funcs_to_process st ∧ name ∉ collected_funcs st)
    ∧ Forall (λ call, get_function_pseudocode call.1 = Ok call.2) new.
Proof.
  remember (size (funcs_to_process st)) as n eqn:Hn.
  revert st Hn. induction n as [n IH] using lt_wf_ind. intros st Hn.
  rewrite while_loop_unfold. destruct (decide _) as [Hempty|Hne].
  { exists []. rewrite str_app_nil_r, (right_id_L [] (++)).
    split_and!; [|constructor|set_solver|constructor].
    destruct st; simpl in *; subst. by rewrite (left_id_L ∅ (∪)). }
  destruct (set_pop_nonempty _ Hne) as (x & Hx & ->).
  assert (size (funcs_to_process st ∖ {[x]}) < n) as Hlt.
  { subst n. by apply subset_size, subset_difference_elem_of. }
  destruct (decide (x ∈ collected_funcs st)) as [Hin|Hnotin].
  - edestruct (IH _ Hlt) as (new & -> & Hnd & Hnew & Hcalls); [done|].
    exists new. simpl in *. split_and!; [done|done| |done].
    intros name. rewrite Hnew. set_solver.
  - destruct (get_function_pseudocode_returns x) as [body Hbody].
    rewrite Hbody.
    edestruct (IH _ Hlt) as (new & -> & Hnd & Hnew & Hcalls); [done|].
    exists ((x, body) :: new). simpl in *. split_and!.
    + f_equal. f_equal.
      * rewrite sections_cons. destruct (truthy body); [|done].
        by rewrite render_cons, str_app_assoc.
      * set_solver.
      * by rewrite <- app_assoc.
    + constructor; [|done]. rewrite Hnew. set_solver.
    + intros name. rewrite elem_of_cons, Hnew.
      destruct (decide (name = x)) as [->|]; set_solver.
    + by constructor.
Qed.

(** *** The collector as a whole *)

Lemma run_collector_spec text :
  ∃ st,
    run_collector text = Ok st
    ∧ result st = text +:+ render (sections (processed st))
    ∧ funcs_to_process st = ∅
    ∧ NoDup (processed st).*1
    ∧ (∀ name, name ∈ (processed st).*1 ↔
         name ∈ extract_sub_functions text ∧ search text ≠ Some name)
    ∧ Forall (λ call, get_function_pseudocode call.1 = Ok call.2)
        (processed st).
Proof.
  unfold ActionHandler.run_collector.
  edestruct while_loop_spec as (new & -> & Hnd & Hnew & Hcalls).
  eexists. split; [done|]. simpl in *. split_and!; try done.
  intros name. rewrite Hnew.
  destruct (search text) as [g|] eqn:Hg; [|set_solver].
  rewrite (search_truthy _ _ Hg). set_solver.
Qed.

Lemma helper_log_spec text :
  get_all_related_pseudocode text = Ok (text +:+ render (helper_sections text))
  ∧ NoDup (helper_log text).*1
  ∧ (∀ name, name ∈ (helper_log text).*1 ↔
       name ∈ extract_sub_functions text ∧ search text ≠ Some name)
  ∧ Forall (λ call, get_function_pseudocode call.1 = Ok call.2)
      (helper_log text).
Proof.
  destruct (run_collector_spec text) as (st & Hrun & Hres & _ & ?).
  unfold ActionHandler.get_all_related_pseudocode,
    ActionHandler.helper_sections, ActionHandler.helper_log.
  rewrite Hrun. simpl. by rewrite Hres.
Qed.

Lemma elem_of_sections name body log :
  (name, body) ∈ sections log ↔ (name, body) ∈ log ∧ body ≠ "".
Proof.
  unfold sections. rewrite list_elem_of_filter. simpl.
  rewrite Is_true_true, truthy_true. tauto.
Qed.

Lemma sections_names_NoDup log : NoDup log.*1 → NoDup (sections log).*1.
Proof.
  induction log as [|[name body] log IH]; [done|].
  rewrite fmap_cons, NoDup_cons, sections_cons. intros [Hname Hlog].
  destruct (truthy body); [|by auto].
  rewrite fmap_cons. constructor; [|by auto].
  intros ([name' body'] & Heq & [Hin _]%elem_of_sections)%list_elem_of_fmap.
  simpl in Heq. subst name'.
  apply Hname, list_elem_of_fmap. by exists (name, body').
Qed.

Lemma helper_sections_spec text name body :
  (name, body) ∈ helper_sections text ↔
    name ∈ extract_sub_functions text ∧ search text ≠ Some name
    ∧ get_function_pseudocode name = Ok body ∧ body ≠ "".
Proof.
  destruct (helper_log_spec text) as (_ & _ & Hnames & Hcalls).
  unfold ActionHandler.helper_sections. rewrite elem_of_sections.
  rewrite Forall_forall in Hcalls. split.
  - intros [Hin Hbody]. split_and!; [| |by apply (Hcalls _ Hin)|done].
    all: apply (Hnames name), list_elem_of_fmap; by exists (name, body).
  - intros (Href & Hmain & Hcall & Hbody). split; [|done].
    pose proof (proj2 (Hnames name) (conj Href Hmain)) as Hin.
    apply list_elem_of_fmap in Hin as ([name' body'] & Heq & Hin).
    simpl in Heq. subst name'.
    pose proof (Hcalls _ Hin) as Hbody'. simpl in *.
    by replace body with body' by congruence.
Qed.

Lemma filter_absent (l : list (string * string)) name :
  name ∉ l.*1 → filter (λ sec, sec.1 = name) l = [].
Proof.
  induction l as [|[name' body] l IH]; [done|].
  rewrite fmap_cons, not_elem_of_cons, filter_cons. simpl.
  intros [Hne Hl]. case_decide; [congruence|by auto].
Qed.

Lemma count_le_1 (l : list (string * string)) name :
  NoDup l.*1 → length (filter (λ sec, sec.1 = name) l) ≤ 1.
Proof.
  induction l as [|[name' body] l IH]; [simpl; lia|].
  rewrite fmap_cons, NoDup_cons, filter_cons. simpl. intros [Hname Hl].
  case_decide as Heq; [|by auto]. subst name'.
  rewrite filter_absent by done. simpl. lia.
Qed.

(** C1. Whatever the host answers, the collector returns and never raises:
    it gives the primary text followed by the helper sections. A section
    is there exactly for a reference of the primary text, other than the
    main one, whose lookup gives a text that is not empty; a reference
    whose lookup fails (sentinel address, no function object, failed
    decompilation, an exception of the host) has none, and when every
    reference fails the primary text comes back as it is. *)
Theorem collect_omits_failed_helpers text :
  get_all_related_pseudocode text = Ok (text +:+ render (helper_sections text))
  ∧ (∀ name body,
       (name, body) ∈ helper_sections text ↔
         name ∈ extract_sub_functions text ∧ search text ≠ Some name
         ∧ get_function_pseudocode name = Ok body ∧ body ≠ "")
  ∧ (∀ name, helper_fails name → name ∉ (helper_sections text).*1)
  ∧ ((∀ name, name ∈ extract_sub_functions text → helper_fails name) →
     get_all_related_pseudocode text = Ok text).
Proof.
  pose proof (helper_log_spec text) as (Hout & _).
  pose proof (helper_sections_spec text) as Hsec.
  assert (∀ name, helper_fails name → name ∉ (helper_sections text).*1)
    as Hfails.
  { intros name Hfail ([name' body] & -> & Hin)%list_elem_of_fmap.
    apply Hsec in Hin as (_ & _ & Hcall & Hbody). simpl in *.
    rewrite (helper_fails_empty _ Hfail) in Hcall. congruence. }
  split_and!; [done|done|done|]. intros Hall. rewrite Hout.
  destruct (helper_sections text) as [|[name body] secs] eqn:Hsecs.
  { by rewrite str_app_nil_r. }
  exfalso. apply (Hfails name).
  - apply Hall. by apply (Hsec name body); left.
  - rewrite fmap_cons. left.
Qed.

(** C2. Every reference has at most one section in the output, however
    often it occurs in the primary text. *)
Theorem each_reference_at_most_one_section text name :
  get_all_related_pseudocode text = Ok (text +:+ render (helper_sections text))
  ∧ length (filter (λ sec, sec.1 = name) (helper_sections text)) ≤ 1.
Proof.
  destruct (helper_log_spec text) as (Hout & Hnd & _). split; [done|].
  by apply count_le_1, sections_names_NoDup.
Qed.

Lemma helper_log_nil text :
  extract_sub_functions text = ∅ → helper_log text = [].
Proof.
  intros Hempty. destruct (helper_log_spec text) as (_ & _ & Hnames & _).
  destruct (helper_log text) as [|[name body] log]; [done|].
  destruct (proj1 (Hnames name)) as [Hin _]; [rewrite fmap_cons; left|].
  rewrite Hempty in Hin. by apply not_elem_of_empty in Hin.
Qed.

(** C3. A primary text in which no position starts a reference comes back
    unchanged; so does the empty text. *)
Theorem collect_without_references text :
  (∀ k, match_sub (drop_str k text) = None) →
  get_all_related_pseudocode text = Ok text
  ∧ get_all_related_pseudocode "" = Ok "".
Proof.
  assert (∀ t, findall t = [] → get_all_related_pseudocode t = Ok t) as Hnone.
  { intros t Ht. destruct (helper_log_spec t) as (-> & _).
    unfold ActionHandler.helper_sections.
    rewrite helper_log_nil; [by rewrite str_app_nil_r|].
    unfold extract_sub_functions. by rewrite Ht. }
  intros Htext. split; [|by apply Hnone].
  by apply Hnone, findall_no_match.
Qed.

Lemma filter_all {A} (P : A → Prop) `{∀ x, Decision (P x)} (l : list A) :
  Forall P l → filter P l = l.
Proof.
  induction 1 as [|x l Hx _ IH]; [done|].
  rewrite filter_cons. case_decide; [by rewrite IH|done].
Qed.

(** C4, as amended. The main reference is the one [search] finds: the
    first reference followed by white space, if any, and then an opening
    parenthesis. It is one of the references of the text; it is in
    [collected_funcs] from before the loop to its end, it is never
    decompiled as a helper, and it has no section: the text that is
    returned is the primary text followed by the helper sections, and
    none of them is named after the main reference. *)
Theorem main_reference_is_no_helper text name :
  search text = Some name →
  name ∈ extract_sub_functions text
  ∧ (∃ st, run_collector text = Ok st ∧ name ∈ collected_funcs st)
  ∧ (name ∉ (helper_log text).*1)
  ∧ (name ∉ (helper_sections text).*1)
  ∧ get_all_related_pseudocode text
    = Ok (text +:+ render (helper_sections text))
  ∧ get_all_related_pseudocode text
    = Ok (text +:+ render (filter (λ sec, sec.1 ≠ name)
                             (helper_sections text))).
Proof.
  intros Hmain.
  destruct (helper_log_spec text) as (Hout & _ & Hnames & _).
  assert (name ∉ (helper_log text).*1) as Hlog.
  { intros [_ Hne]%Hnames. by apply Hne. }
  assert (name ∉ (helper_sections text).*1) as Hsec.
  { intros ([name' body] & Heq & [Hin _]%elem_of_sections)%list_elem_of_fmap.
    simpl in Heq. subst name'.
    apply Hlog, list_elem_of_fmap. by exists (name, body). }
  split_and!; [| |done|done|done|].
  3: { rewrite Hout. do 3 f_equal. symmetry.
       apply filter_all, Forall_forall. intros [n b] Hin Heq.
       simpl in Heq. subst n.
       apply Hsec, list_elem_of_fmap. by exists (name, b). }
  - by apply elem_of_list_to_set, search_findall.
  - unfold ActionHandler.run_collector. rewrite Hmain.
    rewrite (search_truthy _ _ Hmain).
    edestruct while_loop_spec as (new & -> & _). eexists. split; [done|].
    simpl. set_solver.
Qed.

Lemma helper_section_unfold name body :
  helper_section name body =
    LF +:+ LF +:+ "// Function: " +:+ name +:+ LF +:+ body.
Proof.
  unfold helper_section, separator. by rewrite !str_app_assoc.
Qed.

(** C5. The output starts with the primary text; what follows is, for every
    helper section, the separator line that names the helper and then the
    text of the helper. *)
Theorem primary_text_first text :
  ∃ out,
    get_all_related_pseudocode text = Ok out
    ∧ startswith out text = true
    ∧ out = text +:+ concat_str
              ((λ sec, LF +:+ LF +:+ "// Function: " +:+ sec.1 +:+ LF
                       +:+ sec.2) <$> helper_sections text).
Proof.
  destruct (helper_log_spec text) as (-> & _). eexists. split; [done|].
  split; [apply prefix_str_app|]. f_equal. unfold render. f_equal.
  apply list_fmap_ext. intros _ sec _. apply helper_section_unfold.
Qed.

(** C6. The loop ends, with nothing left to process. It decompiles no
    reference twice and makes at most as many lookups as the primary text
    has distinct references; every reference it decompiles, and so every
    section, is a match of the primary text: what the helpers contain is
    not scanned. The text that is returned is the one in [result] at the
    end of the loop: the primary text followed by those sections, each
    under the name of a match of the primary text and with the text its
    lookup gave. *)
Theorem loop_terminates_one_level text :
  ∃ st,
    run_collector text = Ok st
    ∧ funcs_to_process st = ∅
    ∧ NoDup (processed st).*1
    ∧ length (processed st) ≤ size (extract_sub_functions text)
    ∧ (∀ name, name ∈ (processed st).*1 → name ∈ findall text)
    ∧ (∀ name, name ∈ (helper_sections text).*1 → name ∈ findall text)
    ∧ get_all_related_pseudocode text = Ok (result st)
    ∧ result st = text +:+ render (helper_sections text)
    ∧ (∀ name body,
         (name, body) ∈ helper_sections text →
         name ∈ findall text ∧ get_function_pseudocode name = Ok body)
    ∧ get_all_related_pseudocode text
      = Ok (text +:+ render (filter (λ sec, sec.1 ∈ findall text)
                               (helper_sections text))).
Proof.
  destruct (run_collector_spec text)
    as (st & Hrun & Hres & Hdone & Hnd & Hnames & Hcalls).
  assert (∀ name, name ∈ (processed st).*1 → name ∈ findall text) as Hrefs.
  { intros name [Hin _]%Hnames. by apply elem_of_list_to_set in Hin. }
  assert (helper_sections text = sections (processed st)) as Hsecs.
  { unfold ActionHandler.helper_sections, ActionHandler.helper_log.
    by rewrite Hrun. }
  assert (∀ name body, (name, body) ∈ helper_sections text →
            name ∈ findall text ∧ get_function_pseudocode name = Ok body)
    as Hsec.
  { intros name body. rewrite Hsecs. intros [Hin _]%elem_of_sections. split.
    - apply Hrefs, list_elem_of_fmap. by exists (name, body).
    - rewrite Forall_forall in Hcalls. apply (Hcalls _ Hin). }
  assert (get_all_related_pseudocode text = Ok (result st)) as Hout.
  { unfold ActionHandler.get_all_related_pseudocode. by rewrite Hrun. }
  exists st. split_and!; try done.
  3: { by rewrite Hres, Hsecs. }
  3: { rewrite Hout, Hres, <- Hsecs. do 3 f_equal. symmetry.
       apply filter_all, Forall_forall. intros [n b] Hin.
       by apply (Hsec n b). }
  - rewrite <- (length_fmap fst), <- (size_list_to_set (C:=gset string)) by done.
    apply subseteq_size. intros name Hin%elem_of_list_to_set.
    by apply Hnames.
  - unfold ActionHandler.helper_sections, ActionHandler.helper_log.
    rewrite Hrun.
    intros name ([name' body] & Heq & [Hin _]%elem_of_sections)%list_elem_of_fmap.
    simpl in Heq. subst name'.
    apply Hrefs, list_elem_of_fmap. by exists (name, body).
Qed.

End Facts.

(** *** Instances *)

Import Fixtures.

Lemma collect_without_references_witness :
  get_all_related_pseudocode demo_ida pop_first "return 0;" = Ok "return 0;"
  ∧ get_all_related_pseudocode demo_ida pop_first "" = Ok "".
Proof.
  apply (collect_without_references demo_ida pop_first "return 0;").
  intros k. do 10 (destruct k as [|k]; [reflexivity|]). reflexivity.
Defined.

Lemma main_reference_is_no_helper_witness :
  "sub_1000" ∈ extract_sub_functions "void sub_1000 (int a) { sub_2000(a); }"
  ∧ (∃ st, run_collector demo_ida pop_first
             "void sub_1000 (int a) { sub_2000(a); }" = Ok st
           ∧ "sub_1000" ∈ collected_funcs st)
  ∧ ("sub_1000" ∉ (helper_log demo_ida pop_first
                     "void sub_1000 (int a) { sub_2000(a); }").*1)
  ∧ ("sub_1000" ∉ (helper_sections demo_ida pop_first
                     "void sub_1000 (int a) { sub_2000(a); }").*1)
  ∧ get_all_related_pseudocode demo_ida pop_first
      "void sub_1000 (int a) { sub_2000(a); }"
    = Ok ("void sub_1000 (int a) { sub_2000(a); }"
          +:+ render (helper_sections demo_ida pop_first
                        "void sub_1000 (int a) { sub_2000(a); }"))
  ∧ get_all_related_pseudocode demo_ida pop_first
      "void sub_1000 (int a) { sub_2000(a); }"
    = Ok ("void sub_1000 (int a) { sub_2000(a); }"
          +:+ render (filter (λ sec, sec.1 ≠ "sub_1000")
                        (helper_sections demo_ida pop_first
                           "void sub_1000 (int a) { sub_2000(a); }"))).
Proof.
  apply (main_reference_is_no_helper demo_ida pop_first
           "void sub_1000 (int a) { sub_2000(a); }" "sub_1000").
  reflexivity.
Defined.

(** The example of the specification: [sub_1000] occurs twice and
    [sub_2000] once. [sub_1000] is the main reference, so the one section
    is the one of [sub_2000]. *)
Example collect_twice_called :
  get_all_related_pseudocode demo_ida pop_first
    "sub_1000(a,b); x = 1; sub_1000(a,b); sub_2000(x);"
  = Ok ("sub_1000(a,b); x = 1; sub_1000(a,b); sub_2000(x);"
        +:+ LF +:+ LF +:+ "// Function: sub_2000" +:+ LF
        +:+ "void helper()" +:+ LF +:+ "{ sub_99(); }").
Proof. vm_compute. reflexivity. Qed.

(** A reference the symbol table does not know has no section, and the
    text of a helper is not scanned: [sub_99] has none either. *)
Example collect_unknown_helper :
  get_all_related_pseudocode demo_ida pop_first
    "int sub_1(void) { sub_dead(); return sub_2(); }"
  = Ok ("int sub_1(void) { sub_dead(); return sub_2(); }"
        +:+ LF +:+ LF +:+ "// Function: sub_2" +:+ LF
        +:+ "void helper()" +:+ LF +:+ "{ sub_99(); }").
Proof. vm_compute. reflexivity. Qed.

(** C4, as stated, fails: in this text the first reference with the
    parenthesis right behind it is [sub_2], and [sub_2] gets a section,
    because [search] takes [sub_1], which has a blank before its
    parenthesis, for the main reference. *)
Lemma immediate_call_gets_a_section :
  first_immediate_call "sub_1 (x); sub_2(y);" = Some "sub_2"
  ∧ search "sub_1 (x); sub_2(y);" = Some "sub_1"
  ∧ helper_sections demo_ida pop_first "sub_1 (x); sub_2(y);"
    = [("sub_2", "void helper()" +:+ LF +:+ "{ sub_99(); }")]
  ∧ get_all_related_pseudocode demo_ida pop_first "sub_1 (x); sub_2(y);"
    = Ok ("sub_1 (x); sub_2(y);" +:+ LF +:+ LF +:+ "// Function: sub_2"
          +:+ LF +:+ "void helper()" +:+ LF +:+ "{ sub_99(); }").
Proof. split_and!; vm_compute; reflexivity. Qed.

End CollectorFacts.

(** ** The dispatcher *)

Module DispatcherFacts.
Import Py PyFacts AIHandler.

Section Facts.
Variable SYSTEM_PROMPT : string.
Variable service : ChatRequest → res (list string).

Abbreviation try_body := (try_body SYSTEM_PROMPT service).
Abbreviation process_request := (process_request SYSTEM_PROMPT service).

Lemma net_try_except_ok {A} (body : net A) handler sent a sent' :
  body sent = (Ok a, sent') → net_try_except body handler sent = (Ok a, sent').
Proof. unfold net_try_except. by intros ->. Qed.

Lemma net_try_except_raise {A} (body : net A) handler sent e sent' :
  body sent = (Raise e, sent') →
  net_try_except body handler sent = handler e sent'.
Proof. unfold net_try_except. by intros ->. Qed.

(** The statements under [try] when the model is a DeepSeek one: one
    request is sent, and the answer decides. *)
Lemma try_body_deepseek model_name pseudocode target_language api_key sent :
  startswith (lower model_name) "deepseek" = true →
  let req := deepseek_request model_name
               (replace SYSTEM_PROMPT "[language_combobox_value]"
                  target_language)
               pseudocode api_key target_language in
  try_body model_name pseudocode target_language api_key sent =
    (match service req with
     | Ok choices => Some <$> first_choice choices
     | Raise e => Raise e
     end, sent ++ [req]).
Proof.
  intros Hmodel req. unfold AIHandler.try_body. rewrite Hmodel.
  unfold process_deepseek, complete, mbind, net_bind. fold req.
  destruct (service req) as [[|c choices]|e]; reflexivity.
Qed.

Lemma try_body_other model_name pseudocode target_language api_key sent :
  startswith (lower model_name) "deepseek" = false →
  try_body model_name pseudocode target_language api_key sent
    = (Ok None, sent).
Proof. intros Hmodel. unfold AIHandler.try_body. by rewrite Hmodel. Qed.

(** C7. [process_request] never raises: whatever the statements under its
    [try] raise comes back as the text of the exception behind the label
    [Error processing request: ]. That is so in particular for an
    exception of the service. *)
Theorem process_request_never_raises
    model_name pseudocode target_language api_key sent :
  (∃ v, (process_request model_name pseudocode target_language api_key
           sent).1 = Ok v)
  ∧ (∀ e,
       (try_body model_name pseudocode target_language api_key sent).1
         = Raise e →
       (process_request model_name pseudocode target_language api_key
          sent).1 = Ok (Some ("Error processing request: " +:+ str e)))
  ∧ (∀ e,
       startswith (lower model_name) "deepseek" = true →
       service (deepseek_request model_name
                  (replace SYSTEM_PROMPT "[language_combobox_value]"
                     target_language)
                  pseudocode api_key target_language) = Raise e →
       (process_request model_name pseudocode target_language api_key
          sent).1 = Ok (Some ("Error processing request: " +:+ str e))).
Proof.
  assert (∀ e,
    (try_body model_name pseudocode target_language api_key sent).1
      = Raise e →
    (process_request model_name pseudocode target_language api_key
       sent).1 = Ok (Some ("Error processing request: " +:+ str e)))
    as Hcaught.
  { intros e He. unfold AIHandler.process_request.
    destruct (try_body _ _ _ _ sent) as [r sent'] eqn:Hbody.
    simpl in He. subst r. by erewrite net_try_except_raise. }
  split_and!; [|done|].
  - unfold AIHandler.process_request.
    destruct (try_body model_name pseudocode target_language api_key sent)
      as [[v|e] sent'] eqn:Hbody.
    + exists v. by erewrite net_try_except_ok.
    + eexists. by erewrite net_try_except_raise.
  - intros e Hmodel Hraise. apply Hcaught.
    rewrite try_body_deepseek by done. cbv zeta. by rewrite Hraise.
Qed.

(** What [process_request] sends: one request for a DeepSeek model, with
    the credential it was given, and nothing otherwise. *)
Lemma process_request_sent model_name pseudocode target_language api_key sent :
  (process_request model_name pseudocode target_language api_key sent).2 =
    if startswith (lower model_name) "deepseek"
    then sent ++ [deepseek_request model_name
                    (replace SYSTEM_PROMPT "[language_combobox_value]"
                       target_language)
                    pseudocode api_key target_language]
    else sent.
Proof.
  unfold AIHandler.process_request, net_try_except.
  destruct (startswith (lower model_name) "deepseek") eqn:Hmodel.
  - rewrite try_body_deepseek by done. cbv zeta.
    by destruct (service _) as [[|c choices]|e].
  - by rewrite try_body_other.
Qed.

(** C9. For a model whose name in lower case does not start with
    [deepseek], [process_request] sends nothing and returns [None]. *)
Theorem unrecognized_model_gives_nothing
    model_name pseudocode target_language api_key sent :
  startswith (lower model_name) "deepseek" = false →
  process_request model_name pseudocode target_language api_key sent
    = (Ok None, sent).
Proof.
  intros Hmodel. unfold AIHandler.process_request.
  apply net_try_except_ok. by apply try_body_other.
Qed.

End Facts.

(** *** Instances *)

Import Fixtures.

Lemma unrecognized_model_gives_nothing_witness :
  process_request "prompt" demo_service "gpt-4o" "int f();" "C++" "key" []
    = (Ok None, []).
Proof.
  apply (unrecognized_model_gives_nothing "prompt" demo_service "gpt-4o").
  reflexivity.
Defined.

(** An exception of the service, and a response without choices *)
Example process_request_service_error :
  process_request "prompt" failing_service "deepseek-v3" "int f();" "Go"
    "key" []
  = (Ok (Some "Error processing request: 401 Unauthorized"),
     [deepseek_request "deepseek-v3" "prompt" "int f();" "key" "Go"]).
Proof. reflexivity. Qed.

Example process_request_no_choice :
  (process_request "prompt" silent_service "deepseek-v3" "int f();" "Go"
     "key" []).1
  = Ok (Some "Error processing request: list index out of range").
Proof. reflexivity. Qed.

(** C8, as stated, fails for [process_request]: with a DeepSeek model and
    an empty credential it sends the request, with that credential, and
    returns the answer of the service. *)
Lemma empty_credential_reaches_service :
  process_request "prompt" demo_service "DeepSeek-V3" "int f();" "C++" "" []
    = (Ok (Some "translated"),
       [deepseek_request "DeepSeek-V3" "prompt" "int f();" "" "C++"])
  ∧ credential (deepseek_request "DeepSeek-V3" "prompt" "int f();" "" "C++")
    = "".
Proof. split; reflexivity. Qed.

End DispatcherFacts.

(** ** The summarize widget *)

Module WidgetFacts.
Import Py PyFacts SummarizeWidget.

(** A worker is only ever started with a credential that is not empty. *)
Lemma started_worker_has_credential self code t :
  Start t ∈ (set_pseudocode self code).2 → api_key (coro t) ≠ "".
Proof.
  unfold set_pseudocode. destruct (responseTE self); [|by intros ?%elem_of_nil].
  assert (∀ w : widget, Start t ∉ (_cleanup_thread w).2) as Hclean.
  { intros w. unfold _cleanup_thread. destruct (_async_thread w); simpl.
    - rewrite !elem_of_cons, elem_of_nil. naive_solver.
    - apply not_elem_of_nil. }
  assert (∀ w : widget, Start t ∉
    (match _async_thread w with
     | Some _ => _cleanup_thread w
     | None => (w, [])
     end).2) as Hdone.
  { intros w. destruct (_async_thread w) eqn:Hw; [|apply not_elem_of_nil].
    apply Hclean. }
  specialize (Hdone self).
  destruct (match _async_thread self with
            | Some _ => _cleanup_thread self
            | None => (self, [])
            end) as [self' done]. simpl in Hdone.
  destruct (main_widget self') as [mw|]; [|done].
  destruct (read_configuration mw) as [[[selected_model target_language] key]|e].
  - destruct (truthy key) eqn:Hkey; [|done]. simpl.
    rewrite elem_of_app, list_elem_of_singleton.
    intros [?|[= ->]]; [done|]. simpl. by apply truthy_true.
  - by destruct (is_RuntimeError e).
Qed.

(** So no worker that [set_pseudocode] starts sends a request with an
    empty credential. *)
Lemma no_request_without_credential
    SYSTEM_PROMPT service self code t sent req :
  Start t ∈ (set_pseudocode self code).2 →
  req ∈ (run_worker SYSTEM_PROMPT service t sent).2 →
  req ∈ sent ∨ AIHandler.credential req ≠ "".
Proof.
  intros Hkey%started_worker_has_credential. unfold run_worker.
  rewrite DispatcherFacts.process_request_sent.
  destruct (startswith _ _); [|by left].
  rewrite elem_of_app, list_elem_of_singleton. intros [?| ->]; [by left|].
  by right.
Qed.

(** C8, as amended. The credential is checked by [set_pseudocode], the
    caller of [process_request]: when the output area exists, the main
    widget is set and the credential read from it is empty, the output
    area shows [API key is required], the widget owns no worker
    afterwards and none was started, so [process_request] is not called
    and nothing is sent. *)
Theorem empty_credential_starts_no_worker
    self code te mw selected_model target_language :
  responseTE self = Some te →
  main_widget self = Some mw →
  read_configuration mw = Ok (selected_model, target_language, "") →
  responseTE (set_pseudocode self code).1
    = Some {| plainText := "API key is required" |}
  ∧ _async_thread (set_pseudocode self code).1 = None
  ∧ (∀ t, Start t ∉ (set_pseudocode self code).2).
Proof.
  intros Hte Hmw Hread. unfold set_pseudocode, _cleanup_thread. rewrite Hte.
  destruct (_async_thread self) as [old|] eqn:Hold; simpl;
    rewrite Hmw, Hread; simpl; rewrite ?Hold; split_and!; try done.
  - intros t. rewrite !elem_of_cons, elem_of_nil. naive_solver.
  - intros t. apply not_elem_of_nil.
Qed.

(** C10. Without an output area [set_pseudocode] changes nothing: the
    widget is the same afterwards, nothing is shown, no thread is
    stopped, made or started. *)
Theorem set_pseudocode_without_output_area self code :
  responseTE self = None → set_pseudocode self code = (self, []).
Proof. intros Hte. unfold set_pseudocode. by rewrite Hte. Qed.

(** *** Instances *)

Import Fixtures.

Lemma empty_credential_starts_no_worker_witness :
  responseTE (set_pseudocode shown "int f();").1
    = Some {| plainText := "API key is required" |}
  ∧ _async_thread (set_pseudocode shown "int f();").1 = None
  ∧ (∀ t, Start t ∉ (set_pseudocode shown "int f();").2).
Proof.
  apply (empty_credential_starts_no_worker shown "int f();"
           {| plainText := "" |} no_credential "DeepSeek-V3" "C++");
    reflexivity.
Defined.

Lemma set_pseudocode_without_output_area_witness :
  set_pseudocode not_shown "int f();" = (not_shown, []).
Proof.
  apply (set_pseudocode_without_output_area not_shown "int f();").
  reflexivity.
Defined.

End WidgetFacts.

(** * Further properties *)

(** ** Strings *)

Module PyMoreFacts.
Import Py PyFacts.

Lemma take_drop_str k s : take_str k s +:+ drop_str k s = s.
Proof.
  revert s. induction k as [|k IH]; intros [|c s]; simpl; try done.
  by rewrite str_app_cons, IH.
Qed.

Lemma drop_str_app pre s : drop_str (String.length pre) (pre +:+ s) = s.
Proof. induction pre as [|c pre IH]; [by destruct s|done]. Qed.

Lemma str_length_app s t :
  String.length (s +:+ t) = String.length s + String.length t.
Proof. induction s as [|c s IH]; [done|]. rewrite str_app_cons. simpl. lia. Qed.

Lemma length_take_str k s : String.length (take_str k s) ≤ k.
Proof.
  revert s. induction k as [|k IH]; intros [|c s]; simpl; try lia.
  specialize (IH s). lia.
Qed.

Lemma span_app p s : (span p s).1 +:+ (span p s).2 = s.
Proof.
  induction s as [|c s IH]; simpl; [done|].
  destruct (p c); [|done]. destruct (span p s) as [run rest]. simpl in *.
  by rewrite str_app_cons, IH.
Qed.

Lemma span_all p s : all_chars p (span p s).1 = true.
Proof.
  induction s as [|c s IH]; simpl; [done|].
  destruct (p c) eqn:Hc; [|done]. destruct (span p s) as [run rest].
  simpl in *. by rewrite Hc.
Qed.

Lemma span_head p s : head_in p (span p s).2 = false.
Proof.
  induction s as [|c s IH]; simpl; [done|].
  destruct (p c) eqn:Hc; [|done]. by destruct (span p s) as [run rest].
Qed.

Lemma span_unique p run rest :
  all_chars p run = true → head_in p rest = false →
  span p (run +:+ rest) = (run, rest).
Proof.
  induction run as [|c run IH].
  - intros _ Hrest. destruct rest as [|c rest]; [done|].
    simpl in *. by rewrite Hrest.
  - intros [Hc Hrun]%andb_prop Hrest. rewrite str_app_cons. simpl.
    by rewrite Hc, IH.
Qed.

Lemma drop_str_span p s :
  drop_str (String.length (span p s).1) s = (span p s).2.
Proof.
  rewrite <- (span_app p s) at 2. apply drop_str_app.
Qed.

Lemma all_chars_take p k s :
  k ≤ String.length (span p s).1 → all_chars p (take_str k s) = true.
Proof.
  revert s. induction k as [|k IH]; intros [|c s]; simpl; try done.
  destruct (p c) eqn:Hc; [|simpl; lia].
  destruct (span p s) as [run rest] eqn:Hspan. simpl. intros Hk.
  apply (IH s). rewrite Hspan. simpl. lia.
Qed.

End PyMoreFacts.

(** ** The references of a text *)

Module CollectorExtras.
Import Py PyFacts PyMoreFacts ActionHandler CollectorFacts.

Lemma isspace_not_hex c : isspace c = true → is_hex c = false.
Proof. by destruct c as [[] [] [] [] [] [] [] []]. Qed.

Lemma open_paren_inv s : open_paren s = true → ∃ rest, s = "(" +:+ rest.
Proof.
  destruct s as [|c rest]; [done|].
  destruct c as [[] [] [] [] [] [] [] []]; try done. by exists rest.
Qed.

(** The first expression at the head of a text, in words: [sub_], then
    digits, at least one, and no digit behind them. *)
Lemma match_sub_spec s g :
  match_sub s = Some g ↔
  ∃ digits rest,
    s = "sub_" +:+ digits +:+ rest ∧ digits ≠ ""
    ∧ all_chars is_hex digits = true ∧ head_in is_hex rest = false
    ∧ g = "sub_" +:+ digits.
Proof.
  split.
  - unfold match_sub. destruct (after_sub_ s) as [r|] eqn:Hsub; simpl; [|done].
    apply after_sub__inv in Hsub as ->.
    destruct (truthy _) eqn:Ht; [|done]. intros [= <-].
    exists (span is_hex r).1, (span is_hex r).2.
    split_and!; [by rewrite span_app|by apply truthy_true
                |apply span_all|apply span_head|done].
  - intros (digits & rest & -> & Hne & Hall & Hhead & ->).
    unfold match_sub.
    change (after_sub_ ("sub_" +:+ digits +:+ rest))
      with (Some (digits +:+ rest)).
    simpl. rewrite span_unique by done. simpl.
    by apply truthy_true in Hne as ->.
Qed.

(** [\s*\(] at the head of a text, in words *)
Lemma match_call_tail_spec t :
  match_call_tail t = true ↔
  ∃ ws rest, t = ws +:+ "(" +:+ rest ∧ all_chars isspace ws = true.
Proof.
  unfold match_call_tail. rewrite existsb_exists. split.
  - intros (j & Hj%list_elem_of_In%elem_of_greedy & [rest Hrest]%open_paren_inv).
    exists (take_str j t), rest. split.
    + by rewrite <- Hrest, take_drop_str.
    + apply all_chars_take. lia.
  - intros (ws & rest & -> & Hws).
    rewrite span_unique by done. simpl.
    exists (String.length ws). split.
    + apply list_elem_of_In, elem_of_greedy. lia.
    + by rewrite drop_str_app.
Qed.

Lemma match_main_inv s g :
  match_main s = Some g →
  ∃ r, after_sub_ s = Some r ∧ g = "sub_" +:+ (span is_hex r).1
       ∧ (span is_hex r).1 ≠ "" ∧ match_call_tail (span is_hex r).2 = true.
Proof.
  unfold match_main. destruct (after_sub_ s) as [r|]; simpl; [|done].
  destruct (List.find _ _) as [k|] eqn:Hfind; simpl; [|done].
  intros [= <-]. apply List.find_some in Hfind as [Hk Htail].
  apply list_elem_of_In, elem_of_greedy in Hk.
  destruct (decide (k < String.length (span is_hex r).1)) as [Hlt|Hge].
  { destruct (span_length_drop _ _ _ Hlt) as (c & rest & Hdrop & Hc).
    rewrite Hdrop, (match_call_tail_digit c rest Hc) in Htail. done. }
  assert (k = String.length (span is_hex r).1) as -> by lia.
  exists r. rewrite take_str_span, drop_str_span in *.
  split_and!; try done. intros Hnil. rewrite Hnil in Hk. simpl in Hk. lia.
Qed.

(** The second expression at the head of a text, in words: [sub_], then
    digits, at least one, then white space, if any, then [(]. *)
Lemma match_main_spec s g :
  match_main s = Some g ↔
  ∃ digits ws rest,
    s = "sub_" +:+ digits +:+ ws +:+ "(" +:+ rest ∧ digits ≠ ""
    ∧ all_chars is_hex digits = true ∧ all_chars isspace ws = true
    ∧ g = "sub_" +:+ digits.
Proof.
  split.
  - intros (r & Hsub%after_sub__inv & -> & Hne & Htail)%match_main_inv.
    apply match_call_tail_spec in Htail as (ws & rest & Hrest & Hws).
    exists (span is_hex r).1, ws, rest. split_and!; try done.
    + by rewrite <- Hrest, span_app.
    + apply span_all.
  - intros (digits & ws & rest & -> & Hne & Hdigits & Hws & ->).
    assert (span is_hex (digits +:+ ws +:+ "(" +:+ rest)
            = (digits, ws +:+ "(" +:+ rest)) as Hspan.
    { apply span_unique; [done|]. destruct ws as [|c ws]; [done|].
      simpl in *. apply andb_prop in Hws as [Hc _].
      by apply isspace_not_hex. }
    assert (match_call_tail (ws +:+ "(" +:+ rest) = true) as Htail.
    { apply match_call_tail_spec. eauto. }
    destruct (match_main ("sub_" +:+ digits +:+ ws +:+ "(" +:+ rest))
      as [g|] eqn:Hmain.
    + apply match_main_inv in Hmain as (r & Hr & -> & _).
      change (after_sub_ ("sub_" +:+ digits +:+ ws +:+ "(" +:+ rest))
        with (Some (digits +:+ ws +:+ "(" +:+ rest)) in Hr.
      injection Hr as <-. by rewrite Hspan.
    + exfalso. unfold match_main in Hmain.
      change (after_sub_ ("sub_" +:+ digits +:+ ws +:+ "(" +:+ rest))
        with (Some (digits +:+ ws +:+ "(" +:+ rest)) in Hmain.
      simpl in Hmain. rewrite Hspan in Hmain. simpl in Hmain.
      destruct (List.find _ _) as [k|] eqn:Hfind; [done|].
      eapply List.find_none with (x := String.length digits) in Hfind.
      * rewrite <- (drop_str_app digits (ws +:+ "(" +:+ rest)) in Htail.
        congruence.
      * apply list_elem_of_In, elem_of_greedy.
        destruct digits; [done|simpl; lia].
Qed.

Lemma search_leftmost s g :
  search s = Some g ↔
  ∃ k, match_main (drop_str k s) = Some g
       ∧ ∀ j, j < k → match_main (drop_str j s) = None.
Proof.
  induction s as [|c s IH].
  - split; [done|]. intros (k & Hk & _). by rewrite drop_str_nil in Hk.
  - simpl. destruct (match_main (String c s)) as [g'|] eqn:Hhere.
    + split.
      * intros [= <-]. exists 0. split; [done|lia].
      * intros ([|k] & Hk & Hfirst); [simpl in Hk; congruence|].
        specialize (Hfirst 0). simpl in Hfirst. rewrite Hfirst in Hhere; [done|lia].
    + rewrite IH. split.
      * intros (k & Hk & Hfirst). exists (S k). split; [done|].
        intros [|j] Hj; [done|]. apply Hfirst. lia.
      * intros ([|k] & Hk & Hfirst); [simpl in Hk; congruence|].
        exists k. split; [done|]. intros j Hj. apply (Hfirst (S j)). lia.
Qed.

(** X1. The references that [__extract_sub_functions] gives are the
    strings [sub_] followed by a run of hexadecimal digits, at least one,
    taken where they stand in the text with all the digits of the run:
    no occurrence is missed and none is cut short. *)
Theorem extract_sub_functions_spec text name :
  name ∈ extract_sub_functions text ↔
  ∃ pre digits rest,
    text = pre +:+ "sub_" +:+ digits +:+ rest ∧ digits ≠ ""
    ∧ all_chars is_hex digits = true ∧ head_in is_hex rest = false
    ∧ name = "sub_" +:+ digits.
Proof.
  unfold extract_sub_functions.
  rewrite elem_of_list_to_set, elem_of_findall. split.
  - intros (k & (digits & rest & Hs & ?)%match_sub_spec).
    exists (take_str k text), digits, rest. split; [|done].
    by rewrite <- Hs, take_drop_str.
  - intros (pre & digits & rest & -> & Hrest).
    exists (String.length pre). rewrite drop_str_app.
    apply match_sub_spec. eauto.
Qed.

(** X2. The main reference is the leftmost place of the text where [sub_]
    and a run of digits are followed by white space, if any, and an
    opening parenthesis; it is that reference with all its digits. *)
Theorem main_reference_spec text name :
  search text = Some name ↔
  ∃ pre digits ws rest,
    text = pre +:+ "sub_" +:+ digits +:+ ws +:+ "(" +:+ rest ∧ digits ≠ ""
    ∧ all_chars is_hex digits = true ∧ all_chars isspace ws = true
    ∧ name = "sub_" +:+ digits
    ∧ ∀ pre' digits' ws' rest',
        text = pre' +:+ "sub_" +:+ digits' +:+ ws' +:+ "(" +:+ rest' →
        digits' ≠ "" → all_chars is_hex digits' = true →
        all_chars isspace ws' = true →
        String.length pre ≤ String.length pre'.
Proof.
  rewrite search_leftmost. split.
  - intros (k & (digits & ws & rest & Hs & Hne & Hd & Hw & ->)%match_main_spec
              & Hfirst).
    assert (String.length (take_str k text) = k) as Hlen.
    { pose proof (length_take_str k text) as Hle.
      destruct (decide (String.length (take_str k text) = k)); [done|].
      assert (drop_str k text = "") as Hnil; [|by rewrite Hnil in Hs].
      clear -Hle n. revert text Hle n.
      induction k as [|k IH]; intros [|c s]; simpl; try done; try lia.
      intros Hle Hne. apply IH; lia. }
    exists (take_str k text), digits, ws, rest.
    split_and!; try done; [by rewrite <- Hs, take_drop_str|].
    intros pre' digits' ws' rest' Htext Hne' Hd' Hw'. rewrite Hlen.
    destruct (decide (k ≤ String.length pre')); [done|].
    pose proof (Hfirst (String.length pre') ltac:(lia)) as Hnone.
    assert (match_main (drop_str (String.length pre') text)
            = Some ("sub_" +:+ digits')) as Hmatch; [|congruence].
    rewrite Htext, drop_str_app. apply match_main_spec.
    by exists digits', ws', rest'.
  - intros (pre & digits & ws & rest & Htext & Hne & Hd & Hw & -> & Hleft).
    exists (String.length pre). split.
    + rewrite Htext, drop_str_app. apply match_main_spec.
      by exists digits, ws, rest.
    + intros j Hj.
      destruct (match_main (drop_str j text)) as [g|] eqn:Hg; [|done].
      apply match_main_spec in Hg
        as (digits' & ws' & rest' & Hs & Hne' & Hd' & Hw' & _).
      pose proof (Hleft (take_str j text) digits' ws' rest') as Hle.
      rewrite <- Hs, take_drop_str in Hle.
      specialize (Hle eq_refl Hne' Hd' Hw').
      pose proof (length_take_str j text). lia.
Qed.

(** *** Blank lines *)

Lemma span_all_chars p s : all_chars p s = true → span p s = (s, "").
Proof.
  intros Hs. rewrite <- (str_app_nil_r s) at 1. by apply span_unique.
Qed.

Lemma lstrip_empty s : lstrip s = "" ↔ all_chars isspace s = true.
Proof.
  unfold lstrip. split.
  - intros Hrest. rewrite <- (span_app isspace s), Hrest, str_app_nil_r.
    apply span_all.
  - intros Hs. by rewrite span_all_chars.
Qed.

Lemma all_chars_rev_app p s t :
  all_chars p (String.rev_app s t) = all_chars p s && all_chars p t.
Proof.
  revert t. induction s as [|c s IH]; intros t; simpl; [done|].
  rewrite IH. simpl. destruct (p c), (all_chars p s); simpl; try done.
Qed.

Lemma all_chars_rev p s : all_chars p (String.rev s) = all_chars p s.
Proof. unfold String.rev. rewrite all_chars_rev_app. simpl. apply andb_true_r. Qed.

Lemma rev_app_empty s t : String.rev_app s t = "" → s = "" ∧ t = "".
Proof.
  revert t. induction s as [|c s IH]; intros t; simpl; [done|].
  by intros [_ ?]%IH.
Qed.

Lemma all_chars_lstrip p s :
  all_chars p (lstrip s) = true → all_chars isspace s = false →
  all_chars isspace (lstrip s) = false.
Proof.
  intros _ Hs. unfold lstrip.
  destruct (all_chars isspace (span isspace s).2) eqn:Hrest; [|done].
  rewrite <- (span_app isspace s) in Hs.
  assert (∀ a b, all_chars isspace (a +:+ b)
                 = all_chars isspace a && all_chars isspace b) as Happ.
  { intros a b. induction a as [|c a IH]; [done|].
    rewrite str_app_cons. simpl. by rewrite IH, andb_assoc. }
  by rewrite Happ, span_all, Hrest in Hs.
Qed.

(** [line.strip()] is empty exactly when the line is made of white space. *)
Lemma strip_blank s : truthy (strip s) = negb (all_chars isspace s).
Proof.
  destruct (all_chars isspace s) eqn:Hs; simpl.
  - apply truthy_false. unfold strip, rstrip.
    apply lstrip_empty in Hs as ->. done.
  - apply truthy_true. unfold strip, rstrip. intros Hnil.
    apply rev_app_empty in Hnil as [Hnil _].
    apply lstrip_empty in Hnil. rewrite all_chars_rev in Hnil.
    by rewrite (all_chars_lstrip isspace s) in Hnil.
Qed.

Section Extras.
Context {func_t cfunc_t : Type}.
Variable ida : Host func_t cfunc_t.

Lemma clean_lines_filter sv cleaned text :
  Forall2 (λ sline clean_line, tag_remove ida sline = Ok clean_line)
    sv cleaned →
  clean_lines ida sv text
    = Ok (text ++ filter (λ line, all_chars isspace line = false) cleaned).
Proof.
  intros Hsv. revert text.
  induction Hsv as [|sline clean_line sv cleaned Hline _ IH]; intros text.
  - by rewrite filter_nil, (right_id_L [] (++)).
  - simpl. rewrite Hline. simpl. rewrite strip_blank, filter_cons.
    destruct (all_chars isspace clean_line); simpl.
    + by rewrite IH.
    + by rewrite IH, <- (assoc_L (++)).
Qed.

(** X3. When the lookup of a helper goes through (the name has an
    address, the address a function object, the decompilation succeeds
    and no line fails to be cleaned), the text of the helper is the cleaned
    lines that are not blank, in their order, joined by newlines. *)
Theorem helper_text_is_nonblank_lines name ea func cfunc sv cleaned :
  get_name_ea ida 0 name = Ok ea →
  ea ≠ BADADDR ida →
  get_func ida ea = Ok (Some func) →
  decompile ida func = Ok (Some cfunc) →
  get_pseudocode ida cfunc = Ok sv →
  Forall2 (λ sline clean_line, tag_remove ida sline = Ok clean_line)
    sv cleaned →
  get_function_pseudocode ida name
    = Ok (join LF (filter (λ line, all_chars isspace line = false) cleaned)).
Proof.
  intros Hea Hbad Hfunc Hdec Hsv Hclean.
  unfold get_function_pseudocode. rewrite Hea. simpl.
  destruct (decide _); [done|]. rewrite Hfunc. simpl.
  rewrite Hdec. simpl. rewrite Hsv. simpl.
  destruct sv as [|sline sv]; [by inversion Hclean|].
  by rewrite (clean_lines_filter _ cleaned).
Qed.

Variable pop_index : gset string → nat.

(** X4. A text whose only reference is the main one (a function that
    calls nothing but itself) comes back unchanged: the function is not
    appended to itself. *)
Theorem collect_self_reference_only text :
  (∀ name, name ∈ extract_sub_functions text → search text = Some name) →
  get_all_related_pseudocode ida pop_index text = Ok text.
Proof.
  intros Honly.
  destruct (helper_log_spec ida pop_index text) as (-> & _ & Hnames & _).
  unfold helper_sections.
  destruct (helper_log ida pop_index text) as [|[name body] log].
  { by rewrite str_app_nil_r. }
  destruct (proj1 (Hnames name)) as [Hin Hmain]; [rewrite fmap_cons; left|].
  by apply Honly in Hin.
Qed.

End Extras.

Lemma concat_str_length l :
  String.length (concat_str l) = sum_list (String.length <$> l).
Proof.
  induction l as [|s l IH]; [done|].
  simpl. by rewrite str_length_app, IH.
Qed.

(** X5. Which element [set.pop()] hands out changes the order of the
    helper sections and nothing else: for two ways of popping, the
    sections are the same up to their order, and the two outputs have the
    same length. *)
Theorem sections_up_to_order {func_t cfunc_t} (ida : Host func_t cfunc_t)
    (pop_index pop_index' : gset string → nat) text :
  helper_sections ida pop_index text ≡ₚ helper_sections ida pop_index' text
  ∧ ∃ out out',
      get_all_related_pseudocode ida pop_index text = Ok out
      ∧ get_all_related_pseudocode ida pop_index' text = Ok out'
      ∧ String.length out = String.length out'.
Proof.
  assert (helper_sections ida pop_index text
          ≡ₚ helper_sections ida pop_index' text) as Hperm.
  { apply NoDup_Permutation.
    - destruct (helper_log_spec ida pop_index text) as (_ & Hnd & _).
      by eapply NoDup_fmap_1, sections_names_NoDup.
    - destruct (helper_log_spec ida pop_index' text) as (_ & Hnd & _).
      by eapply NoDup_fmap_1, sections_names_NoDup.
    - intros [name body]. by rewrite !helper_sections_spec. }
  split; [done|].
  destruct (helper_log_spec ida pop_index text) as (-> & _).
  destruct (helper_log_spec ida pop_index' text) as (-> & _).
  eexists _, _. split_and!; [done|done|].
  rewrite !str_length_app. f_equal. unfold render.
  rewrite !concat_str_length. by rewrite Hperm.
Qed.

(** *** Instances *)

Import Fixtures MoreFixtures.

Lemma helper_text_is_nonblank_lines_witness :
  get_function_pseudocode blank_lines_ida "sub_401000"
  = Ok (join LF (filter (λ line, all_chars isspace line = false)
                   ["int f()"; "   "; "{"; ""; "}"])).
Proof.
  apply (helper_text_is_nonblank_lines blank_lines_ida "sub_401000"
           4096%Z () () ["int f()"; "   "; "{"; ""; "}"]);
    try reflexivity; [done|repeat constructor].
Defined.

Lemma collect_self_reference_only_witness :
  get_all_related_pseudocode demo_ida pop_first
    "int sub_1(int n) { return n ? sub_1(n - 1) : 0; }"
  = Ok "int sub_1(int n) { return n ? sub_1(n - 1) : 0; }".
Proof.
  apply (collect_self_reference_only demo_ida pop_first).
  intros name Hin. apply elem_of_list_to_set in Hin.
  change (findall "int sub_1(int n) { return n ? sub_1(n - 1) : 0; }")
    with ["sub_1"; "sub_1"] in Hin.
  apply elem_of_cons in Hin as [->|Hin]; [reflexivity|].
  apply elem_of_cons in Hin as [->|Hin]; [reflexivity|].
  by apply elem_of_nil in Hin.
Defined.

End CollectorExtras.

(** ** The widget over a sequence of calls *)

Module WidgetExtras.
Import Py PyFacts SummarizeWidget.

Lemma cleanup_no_thread self : _async_thread (_cleanup_thread self).1 = None.
Proof. unfold _cleanup_thread. by destruct (_async_thread self) eqn:Ht. Qed.

Lemma cleanup_effects self :
  (_cleanup_thread self).2
    = match _async_thread self with
      | Some old => [Quit old; Wait old]
      | None => []
      end.
Proof. unfold _cleanup_thread. by destruct (_async_thread self). Qed.

Lemma cleanup_keeps self :
  responseTE (_cleanup_thread self).1 = responseTE self
  ∧ main_widget (_cleanup_thread self).1 = main_widget self.
Proof. unfold _cleanup_thread. by destruct (_async_thread self). Qed.

(** What a call of [set_pseudocode] does to threads, in every case where
    there is an output area *)
Lemma set_pseudocode_threads self code te :
  responseTE self = Some te →
  (set_pseudocode self code).2
    = match _async_thread self with
      | Some old => [Quit old; Wait old]
      | None => []
      end
      ++ match _async_thread (set_pseudocode self code).1 with
         | Some t => [Start t]
         | None => []
         end.
Proof.
  intros Hte. unfold set_pseudocode, _cleanup_thread. rewrite Hte.
  destruct (_async_thread self) as [old|] eqn:Hold; simpl;
    (destruct (main_widget self) as [mw|]; simpl; [|by rewrite ?Hold]);
    (destruct (read_configuration mw) as [[[m l] k]|e]; simpl;
     [destruct (truthy k); simpl; by rewrite ?Hold
     |destruct (is_RuntimeError e); simpl; by rewrite ?Hold]).
Qed.

(** X6. When there is an output area, a call of [set_pseudocode] first
    stops the worker the widget owns, if any, and waits for it; after
    that it starts at most one worker, and the worker the widget owns
    afterwards is the one it started. *)
Theorem set_pseudocode_replaces_worker self code te :
  responseTE self = Some te →
  ∃ stopped started,
    (set_pseudocode self code).2 = stopped ++ started
    ∧ stopped = match _async_thread self with
                | Some old => [Quit old; Wait old]
                | None => []
                end
    ∧ started = match _async_thread (set_pseudocode self code).1 with
                | Some t => [Start t]
                | None => []
                end.
Proof.
  intros Hte. eexists _, _. split; [|done].
  by eapply set_pseudocode_threads.
Qed.

(** X7. With an output area, a main widget whose controls can be read and
    a credential that is not empty, [set_pseudocode] starts one worker,
    made for the model, the language and the credential just read and for
    the code it was given; the widget owns it, and what the output area
    shows is left as it is. *)
Theorem set_pseudocode_starts_worker
    self code te mw selected_model target_language key :
  responseTE self = Some te →
  main_widget self = Some mw →
  read_configuration mw = Ok (selected_model, target_language, key) →
  key ≠ "" →
  let t := {| coro := {| model_name := selected_model;
                         pseudocode := code;
                         target_language := target_language;
                         api_key := key |} |} in
  (set_pseudocode self code).1
    = Widget (stop_flag self) (Some te) (Some mw) (Some t)
  ∧ (set_pseudocode self code).2
    = match _async_thread self with
      | Some old => [Quit old; Wait old]
      | None => []
      end ++ [Start t].
Proof.
  intros Hte Hmw Hread Hkey%truthy_true t.
  unfold set_pseudocode, _cleanup_thread. rewrite Hte.
  destruct (_async_thread self) as [old|] eqn:Hold; simpl;
    rewrite Hmw, Hread, Hkey; unfold set_async_thread; simpl;
    by rewrite ?Hold, ?Hte, ?Hmw.
Qed.

(** X8. When a control of the main widget cannot be read, no worker is
    started and the widget owns none. For a [RuntimeError] the output area
    says that the plugin widget was closed and the widget forgets its
    main widget; for any other exception it shows [Error: ] and the text
    of the exception, and keeps the main widget. *)
Theorem set_pseudocode_read_failure self code te mw e :
  responseTE self = Some te →
  main_widget self = Some mw →
  read_configuration mw = Raise e →
  _async_thread (set_pseudocode self code).1 = None
  ∧ (∀ t, Start t ∉ (set_pseudocode self code).2)
  ∧ (if is_RuntimeError e
     then responseTE (set_pseudocode self code).1
            = Some {| plainText :=
                "Plugin widget was closed. Press Alt + T to reopen it. Then try again" |}
          ∧ main_widget (set_pseudocode self code).1 = None
     else responseTE (set_pseudocode self code).1
            = Some {| plainText := "Error: " +:+ str e |}
          ∧ main_widget (set_pseudocode self code).1 = Some mw).
Proof.
  intros Hte Hmw Hread. unfold set_pseudocode, _cleanup_thread. rewrite Hte.
  destruct (_async_thread self) as [old|] eqn:Hold; simpl;
    rewrite Hmw, Hread; destruct (is_RuntimeError e); simpl;
    rewrite ?Hold, ?Hmw; split_and!; try done;
    intros t; rewrite ?elem_of_cons, elem_of_nil; naive_solver.
Qed.

(** *** A widget without main widget *)

Lemma step_without_main_widget self c :
  main_widget self = None →
  main_widget (step self c).1 = None ∧ ∀ t, Start t ∉ (step self c).2.
Proof.
  intros Hmw.
  assert (∀ w t, Start t ∉ (_cleanup_thread w).2) as Hclean.
  { intros w t. rewrite cleanup_effects. destruct (_async_thread w).
    - rewrite !elem_of_cons, elem_of_nil. naive_solver.
    - apply not_elem_of_nil. }
  destruct c as [code|response|error]; simpl.
  - unfold set_pseudocode. destruct (responseTE self) as [te|].
    2: { split; [done|]. intros t. apply not_elem_of_nil. }
    assert (∀ w, main_widget w = None →
      main_widget (match _async_thread w with
                   | Some _ => _cleanup_thread w
                   | None => (w, [])
                   end).1 = None
      ∧ ∀ t, Start t ∉ (match _async_thread w with
                        | Some _ => _cleanup_thread w
                        | None => (w, [])
                        end).2) as Hfirst.
    { intros w Hw. destruct (_async_thread w) eqn:Ht.
      - split; [by rewrite (proj2 (cleanup_keeps w))|apply Hclean].
      - split; [done|]. intros t. apply not_elem_of_nil. }
    destruct (Hfirst self Hmw) as [Hmw' Hdone].
    destruct (match _async_thread self with
              | Some _ => _cleanup_thread self
              | None => (self, [])
              end) as [self' done]. simpl in *.
    by rewrite Hmw'.
  - unfold on_ai_response. destruct (responseTE self).
    + split; [by rewrite (proj2 (cleanup_keeps _))|apply Hclean].
    + split; [done|]. intros t. apply not_elem_of_nil.
  - unfold on_ai_error. destruct (responseTE self).
    + split; [by rewrite (proj2 (cleanup_keeps _))|apply Hclean].
    + split; [done|]. intros t. apply not_elem_of_nil.
Qed.

Lemma run_calls_without_main_widget self cs :
  main_widget self = None →
  main_widget (run_calls self cs).1 = None
  ∧ ∀ t, Start t ∉ (run_calls self cs).2.
Proof.
  revert self. induction cs as [|c cs IH]; intros self Hmw; simpl.
  { split; [done|]. intros t. apply not_elem_of_nil. }
  destruct (step_without_main_widget self c Hmw) as [Hmw' Hstep].
  destruct (step self c) as [self' done]. simpl in *.
  destruct (IH self' Hmw') as [Hmw'' Hrest].
  destruct (run_calls self' cs) as [self'' done']. simpl in *.
  split; [done|]. intros t [?|?]%elem_of_app; naive_solver.
Qed.

(** X9. A widget that has no main widget never gets one and never starts
    a worker, whatever calls follow; and this is the state a
    [RuntimeError] of the main widget leaves: after it the widget starts
    no worker again. *)
Theorem closed_main_widget_is_final self code te mw e cs :
  responseTE self = Some te →
  main_widget self = Some mw →
  read_configuration mw = Raise e →
  is_RuntimeError e = true →
  main_widget (run_calls self (SetPseudocode code :: cs)).1 = None
  ∧ ∀ t, Start t ∉ (run_calls self (SetPseudocode code :: cs)).2.
Proof.
  intros Hte Hmw Hread He.
  pose proof (set_pseudocode_read_failure self code te mw e Hte Hmw Hread)
    as (_ & Hstart & Hcase).
  rewrite He in Hcase. destruct Hcase as [_ Hnone].
  simpl. destruct (set_pseudocode self code) as [self' done]. simpl in *.
  destruct (run_calls_without_main_widget self' cs Hnone) as [Hmw' Hrest].
  destruct (run_calls self' cs) as [self'' done']. simpl in *.
  split; [done|]. intros t [?|?]%elem_of_app; naive_solver.
Qed.

(** *** The workers that run *)

Lemma live_app done done' :
  live (done ++ done') = foldl live_after (live done) done'.
Proof. unfold live. apply foldl_app. Qed.

Lemma cleanup_live self :
  foldl live_after (option_list (_async_thread self))
    (_cleanup_thread self).2 = [].
Proof.
  rewrite cleanup_effects. destruct (_async_thread self) as [old|]; simpl;
    [|done]. by destruct (decide (old = old)).
Qed.

Lemma step_live self c :
  foldl live_after (option_list (_async_thread self)) (step self c).2
    = option_list (_async_thread (step self c).1).
Proof.
  destruct c as [code|response|error]; simpl.
  - destruct (responseTE self) as [te|] eqn:Hte.
    + rewrite (set_pseudocode_threads self code te Hte), foldl_app.
      pose proof (cleanup_live self) as Hclean.
      rewrite cleanup_effects in Hclean. rewrite Hclean.
      by destruct (_async_thread (set_pseudocode self code).1).
    + unfold set_pseudocode. by rewrite Hte.
  - unfold on_ai_response. destruct (responseTE self); [|done].
    rewrite cleanup_no_thread. apply (cleanup_live (setPlainText self _)).
  - unfold on_ai_error. destruct (responseTE self); [|done].
    rewrite cleanup_no_thread. apply (cleanup_live (setPlainText self _)).
Qed.

Lemma run_calls_live self cs :
  foldl live_after (option_list (_async_thread self)) (run_calls self cs).2
    = option_list (_async_thread (run_calls self cs).1).
Proof.
  revert self. induction cs as [|c cs IH]; intros self; simpl; [done|].
  pose proof (step_live self c) as Hstep.
  destruct (step self c) as [self' done]. simpl in *.
  specialize (IH self').
  destruct (run_calls self' cs) as [self'' done']. simpl in *.
  by rewrite foldl_app, Hstep.
Qed.

(** X10. Over any sequence of calls of [set_pseudocode] and of the two
    callbacks, starting from a widget that owns no worker, the workers
    started and not yet waited for are the worker the widget owns, if
    any: there is never more than one. *)
Theorem at_most_one_live_worker self cs :
  _async_thread self = None →
  live (run_calls self cs).2 = option_list (_async_thread (run_calls self cs).1)
  ∧ length (live (run_calls self cs).2) ≤ 1.
Proof.
  intros Hnone. pose proof (run_calls_live self cs) as Hlive.
  rewrite Hnone in Hlive. simpl in Hlive. unfold live. rewrite Hlive.
  split; [done|].
  destruct (_async_thread (run_calls self cs).1); simpl; lia.
Qed.

Lemma step_keeps_output_area self c :
  is_Some (responseTE self) → is_Some (responseTE (step self c).1).
Proof.
  intros [te Hte]. destruct c as [code|response|error]; simpl.
  - unfold set_pseudocode, _cleanup_thread. rewrite Hte.
    destruct (_async_thread self) as [old|] eqn:Hold; simpl;
      (destruct (main_widget self) as [mw|]; simpl; [|by eauto]);
      (destruct (read_configuration mw) as [[[m l] k]|e]; simpl;
       [destruct (truthy k); simpl; rewrite ?Hte; by eauto
       |destruct (is_RuntimeError e); simpl; by eauto]).
  - unfold on_ai_response, _cleanup_thread. rewrite Hte. simpl.
    destruct (_async_thread self); simpl; by eauto.
  - unfold on_ai_error, _cleanup_thread. rewrite Hte. simpl.
    destruct (_async_thread self); simpl; by eauto.
Qed.

Lemma run_calls_keeps_output_area self cs :
  is_Some (responseTE self) → is_Some (responseTE (run_calls self cs).1).
Proof.
  revert self. induction cs as [|c cs IH]; intros self Hte; [done|].
  simpl. pose proof (step_keeps_output_area self c Hte) as Hstep.
  destruct (step self c) as [self' done]. simpl in *.
  specialize (IH self' Hstep).
  by destruct (run_calls self' cs) as [self'' done'].
Qed.

Lemma run_calls_snoc self cs c :
  (run_calls self (cs ++ [c])).1 = (step (run_calls self cs).1 c).1.
Proof.
  revert self. induction cs as [|c' cs IH]; intros self; simpl.
  - by destruct (step self c).
  - destruct (step self c') as [self' done]. specialize (IH self').
    destruct (run_calls self' (cs ++ [c])) as [w1 d1].
    by destruct (run_calls self' cs) as [w2 d2].
Qed.

(** X11. A widget that has an output area keeps it through every call.
    So whatever calls came before, requests included, an answer or an
    error that is delivered is shown and leaves the widget without
    worker: the callbacks do not ask which request is answered, and the
    answer to an earlier request also ends the worker of a later one. *)
Theorem answer_ends_every_request self te cs text :
  responseTE self = Some te →
  responseTE (run_calls self (cs ++ [AiResponse text])).1
    = Some {| plainText := text |}
  ∧ _async_thread (run_calls self (cs ++ [AiResponse text])).1 = None
  ∧ responseTE (run_calls self (cs ++ [AiError text])).1
    = Some {| plainText := text |}
  ∧ _async_thread (run_calls self (cs ++ [AiError text])).1 = None.
Proof.
  intros Hte. rewrite !run_calls_snoc. simpl.
  destruct (run_calls_keeps_output_area self cs) as [te' Hte']; [by eauto|].
  unfold on_ai_response, on_ai_error, _cleanup_thread. rewrite Hte'. simpl.
  destruct (_async_thread (run_calls self cs).1) eqn:Hthread; simpl;
    rewrite ?Hthread; by split_and!.
Qed.

(** *** Instances *)

Import Fixtures MoreFixtures.

Lemma set_pseudocode_replaces_worker_witness :
  ∃ stopped started,
    (set_pseudocode has_worker "int f();").2 = stopped ++ started
    ∧ stopped = match _async_thread has_worker with
                | Some old => [Quit old; Wait old]
                | None => []
                end
    ∧ started = match _async_thread (set_pseudocode has_worker "int f();").1
                with
                | Some t => [Start t]
                | None => []
                end.
Proof.
  apply (set_pseudocode_replaces_worker has_worker "int f();"
           {| plainText := "old" |}).
  reflexivity.
Defined.

Lemma set_pseudocode_starts_worker_witness :
  (set_pseudocode has_worker "int f();").1
    = Widget false (Some {| plainText := "old" |}) (main_widget has_worker)
        (Some {| coro := {| model_name := "DeepSeek-V3";
                            pseudocode := "int f();";
                            target_language := "Rust";
                            api_key := "key" |} |})
  ∧ (set_pseudocode has_worker "int f();").2
    = match _async_thread has_worker with
      | Some old => [Quit old; Wait old]
      | None => []
      end
      ++ [Start {| coro := {| model_name := "DeepSeek-V3";
                              pseudocode := "int f();";
                              target_language := "Rust";
                              api_key := "key" |} |}].
Proof.
  apply (set_pseudocode_starts_worker has_worker "int f();"
           {| plainText := "old" |}
           {| model_combo_currentText := Ok "DeepSeek-V3";
              lang_combo_currentText := Ok "Rust";
              token_input_text := Ok "key" |}
           "DeepSeek-V3" "Rust" "key"); done.
Defined.

Lemma set_pseudocode_read_failure_witness :
  _async_thread (set_pseudocode stale "int f();").1 = None
  ∧ (∀ t, Start t ∉ (set_pseudocode stale "int f();").2)
  ∧ responseTE (set_pseudocode stale "int f();").1
      = Some {| plainText :=
          "Plugin widget was closed. Press Alt + T to reopen it. Then try again" |}
  ∧ main_widget (set_pseudocode stale "int f();").1 = None.
Proof.
  apply (set_pseudocode_read_failure stale "int f();" {| plainText := "" |}
           closed_main
           (Exn RuntimeError
              "wrapped C/C++ object of type QComboBox has been deleted"));
    reflexivity.
Defined.

Lemma closed_main_widget_is_final_witness :
  main_widget
    (run_calls stale
       [SetPseudocode "int f();"; SetPseudocode "int f();";
        AiResponse "late"]).1 = None
  ∧ ∀ t, Start t ∉
      (run_calls stale
         [SetPseudocode "int f();"; SetPseudocode "int f();";
          AiResponse "late"]).2.
Proof.
  apply (closed_main_widget_is_final stale "int f();" {| plainText := "" |}
           closed_main
           (Exn RuntimeError
              "wrapped C/C++ object of type QComboBox has been deleted")
           [SetPseudocode "int f();"; AiResponse "late"]);
    reflexivity.
Defined.

Lemma answer_ends_every_request_witness :
  responseTE
    (run_calls ready
       ([SetPseudocode "int f();"; SetPseudocode "int g();"]
        ++ [AiResponse "fn f() {}"])).1
    = Some {| plainText := "fn f() {}" |}
  ∧ _async_thread
      (run_calls ready
         ([SetPseudocode "int f();"; SetPseudocode "int g();"]
          ++ [AiResponse "fn f() {}"])).1 = None
  ∧ responseTE
      (run_calls ready
         ([SetPseudocode "int f();"; SetPseudocode "int g();"]
          ++ [AiError "fn f() {}"])).1
    = Some {| plainText := "fn f() {}" |}
  ∧ _async_thread
      (run_calls ready
         ([SetPseudocode "int f();"; SetPseudocode "int g();"]
          ++ [AiError "fn f() {}"])).1 = None.
Proof.
  apply (answer_ends_every_request ready {| plainText := "" |}
           [SetPseudocode "int f();"; SetPseudocode "int g();"]
           "fn f() {}").
  reflexivity.
Defined.

Lemma at_most_one_live_worker_witness :
  live (run_calls ready
          [SetPseudocode "int f();"; SetPseudocode "int g();";
           AiResponse "fn f() {}"; SetPseudocode "int h();"]).2
    = option_list
        (_async_thread
           (run_calls ready
              [SetPseudocode "int f();"; SetPseudocode "int g();";
               AiResponse "fn f() {}"; SetPseudocode "int h();"]).1)
  ∧ length
      (live (run_calls ready
               [SetPseudocode "int f();"; SetPseudocode "int g();";
                AiResponse "fn f() {}"; SetPseudocode "int h();"]).2) ≤ 1.
Proof.
  apply (at_most_one_live_worker ready
           [SetPseudocode "int f();"; SetPseudocode "int g();";
            AiResponse "fn f() {}"; SetPseudocode "int h();"]).
  reflexivity.
Defined.

End WidgetExtras.

(** ** The windows of the plugin *)

Module PluginExtras.
Import Py PyFacts PyMoreFacts SummarizeWidget AIDAPlugin.

(** X12. Every call of [open_summarize_widget] adds one window at the end
    of [summarize_windows] and leaves the earlier windows and the main
    widget of the plugin as they were, also when [Show] raises; the only
    threads touched are those of the new window. *)
Theorem open_summarize_widget_adds_one Show self pseudocode source_identifier :
  ∃ new_window,
    summarize_windows
      (open_summarize_widget Show self pseudocode source_identifier).1.2
      = summarize_windows self ++ [new_window]
    ∧ AIDAPlugin.main_widget
        (open_summarize_widget Show self pseudocode source_identifier).1.2
      = AIDAPlugin.main_widget self
    ∧ (pseudocode = "" →
       (open_summarize_widget Show self pseudocode source_identifier).2 = []).
Proof.
  unfold open_summarize_widget.
  destruct (Show _) as [output|e]; simpl.
  - destruct (truthy pseudocode) eqn:Hcode.
    + destruct (set_pseudocode _ pseudocode) as [w done]. simpl.
      exists w. split_and!; try done.
      intros ->. done.
    + eexists. by split_and!.
  - eexists. by split_and!.
Qed.

Lemma chr_inj n n' : n < 256 → n' < 256 → chr n = chr n' → n = n'.
Proof.
  intros Hn Hn' Heq. unfold chr in Heq.
  rewrite <- (nat_ascii_embedding n), <- (nat_ascii_embedding n') by done.
  by rewrite Heq.
Qed.

(** X13. Windows opened without identifier get the letter of their place
    in [summarize_windows]: a capital letter for the first twenty-six
    places, and different titles for different places, up to place
    191. *)
Theorem untitled_windows_differ n n' :
  1 ≤ n → n < n' → n' ≤ 191 →
  (window_title "" n =? window_title "" n')%string = false
  ∧ (n ≤ 26 →
     ∃ c, window_title "" n = "Summarize-" +:+ String c ""
          ∧ between 65 90 c = true).
Proof.
  intros Hn Hlt Hn'. split.
  - apply String.eqb_neq. unfold window_title. simpl. intros Heq.
    apply (inj (String.append "Summarize-")) in Heq.
    injection Heq as Heq. apply chr_inj in Heq; lia.
  - intros H26. eexists. split; [done|].
    unfold between, code_point, chr, ascii_of_nat.
    rewrite N_ascii_embedding by lia.
    apply andb_true_intro. split; apply N.leb_le; lia.
Qed.

(** X14. A window opened while the plugin has no main widget has none
    either, and keeps none: whatever calls reach it later, also after the
    main widget of the plugin is made, it starts no worker. *)
Theorem window_before_main_widget
    Show self pseudocode source_identifier made :
  AIDAPlugin.main_widget self = None →
  (∀ t, Start t ∉
     (open_summarize_widget Show self pseudocode source_identifier).2)
  ∧ ∀ new_window,
      last (summarize_windows
              (open_main_widget made
                 (open_summarize_widget Show self pseudocode
                    source_identifier).1.2))
        = Some new_window →
      ∀ cs t, Start t ∉ (run_calls new_window cs).2.
Proof.
  intros Hnone. unfold open_summarize_widget, open_main_widget, init.
  rewrite Hnone.
  assert (∀ w cs t, SummarizeWidget.main_widget w = None →
                    Start t ∉ (run_calls w cs).2) as Hnever.
  { intros w cs t Hw.
    by apply (WidgetExtras.run_calls_without_main_widget w cs Hw). }
  assert (∀ (ws : list widget) w,
    SummarizeWidget.main_widget w = None →
    ∀ new_window, last (ws ++ [w]) = Some new_window →
    ∀ cs t, Start t ∉ (run_calls new_window cs).2) as Hlast.
  { intros ws w Hw new_window Hw' cs t. rewrite last_snoc in Hw'.
    injection Hw' as <-. by apply Hnever. }
  destruct (Show _) as [output|e]; simpl.
  - destruct (truthy pseudocode).
    + pose proof (WidgetExtras.step_without_main_widget
                    (Widget false output None None)
                    (SetPseudocode pseudocode) eq_refl) as [Hw Hstart].
      simpl in Hw, Hstart.
      destruct (set_pseudocode _ pseudocode) as [w done]. simpl in *.
      split; [done|]. by apply Hlast.
    + split; [intros t; apply not_elem_of_nil|]. by apply Hlast.
  - split; [intros t; apply not_elem_of_nil|]. by apply Hlast.
Qed.

(** *** Instances *)

Import Fixtures MoreFixtures.

Lemma untitled_windows_differ_witness :
  (window_title "" 1 =? window_title "" 27)%string = false
  ∧ (1 ≤ 26 →
     ∃ c, window_title "" 1 = "Summarize-" +:+ String c ""
          ∧ between 65 90 c = true).
Proof. apply (untitled_windows_differ 1 27); lia. Defined.

Lemma window_before_main_widget_witness :
  (∀ t, Start t ∉
     (open_summarize_widget demo_show fresh_plugin "int f();" "A").2)
  ∧ ∀ new_window,
      last (summarize_windows
              (open_main_widget no_credential
                 (open_summarize_widget demo_show fresh_plugin "int f();"
                    "A").1.2))
        = Some new_window →
      ∀ cs t, Start t ∉ (run_calls new_window cs).2.
Proof.
  apply (window_before_main_widget demo_show fresh_plugin "int f();" "A"
           no_credential).
  reflexivity.
Defined.

End PluginExtras.

(** ** The action *)

Module ActivationExtras.
Import Py PyFacts PyMoreFacts ActionHandler SummarizeWidget AIDAPlugin.
Import Activation CollectorFacts.

Lemma search_title_head s g : match_title s = Some g → search_title s = Some g.
Proof.
  intros Hs. destruct s as [|c s]; [done|]. simpl. by rewrite Hs.
Qed.

(** X15. The title of a decompiler view, [Pseudocode-] followed by letters
    and digits, gives the window that is opened for it the title
    [Summarize-] followed by the same letters and digits, whatever the
    number of windows. *)
Theorem title_identifier_round_trip id count :
  id ≠ "" → all_chars is_alnum id = true →
  title_identifier (Some ("Pseudocode-" +:+ id)) = id
  ∧ window_title (title_identifier (Some ("Pseudocode-" +:+ id))) count
    = "Summarize-" +:+ id.
Proof.
  intros Hid%truthy_true Halnum.
  assert (title_identifier (Some ("Pseudocode-" +:+ id)) = id) as ->.
  { unfold title_identifier.
    change (truthy ("Pseudocode-" +:+ id)) with true. cbv iota.
    rewrite (search_title_head _ id); [done|].
    unfold match_title, startswith. rewrite prefix_str_app.
    change 11 with (String.length "Pseudocode-").
    rewrite drop_str_app, CollectorExtras.span_all_chars by done. simpl. by rewrite Hid. }
  split; [done|]. unfold window_title. by rewrite Hid.
Qed.

Section Extras.
Context {widget_t func_t cfunc_t : Type}.
Variable ui : Ui widget_t cfunc_t.
Variable ida : Host func_t cfunc_t.
Variable pop_index : gset string → nat.
Variable Show : string → res (option QTextEdit).

Lemma open_summarize_widget_windows self pseudocode source_identifier :
  ∃ new_window,
    summarize_windows
      (open_summarize_widget Show self pseudocode source_identifier).1.2
      = summarize_windows self ++ [new_window]
    ∧ AIDAPlugin.main_widget
        (open_summarize_widget Show self pseudocode source_identifier).1.2
      = AIDAPlugin.main_widget self.
Proof.
  unfold open_summarize_widget. destruct (Show _) as [output|e]; simpl.
  - destruct (truthy pseudocode).
    + destruct (set_pseudocode _ pseudocode) as [w done]. by exists w.
    + by eexists.
  - by eexists.
Qed.

(** X16. Once the current widget and its decompiler view are obtained,
    [activate] returns 1 whatever happens next: a title that cannot be
    read, a failure of [Show], are swallowed. It opens at most one
    window, after the windows there were, and leaves the main widget of
    the plugin alone. *)
Theorem activate_returns_one plugin widget vu :
  get_current_widget ui = Ok widget →
  get_widget_vdui ui widget = Ok vu →
  ∃ plugin' done,
    activate ui ida pop_index Show plugin = Ok (1%Z, plugin', done)
    ∧ AIDAPlugin.main_widget plugin' = AIDAPlugin.main_widget plugin
    ∧ (summarize_windows plugin' = summarize_windows plugin
       ∨ ∃ new_window,
           summarize_windows plugin'
             = summarize_windows plugin ++ [new_window]).
Proof.
  intros Hwidget Hvu. unfold activate. rewrite Hwidget. simpl.
  rewrite Hvu. simpl. destruct vu as [vu|]; [|by eexists _, _; eauto].
  unfold activate_body.
  destruct (get_widget_title ui widget) as [title|e];
    [|by eexists _, _; eauto].
  destruct (get_clean_pseudocode ida vu) as [primary|e];
    [|by eexists _, _; eauto].
  destruct (truthy primary); [|by eexists _, _; eauto].
  destruct (get_all_related_pseudocode ida pop_index primary)
    as [complete|e]; [|by eexists _, _; eauto].
  destruct (open_summarize_widget_windows plugin complete
              (title_identifier title)) as (w & Hw & Hmw).
  destruct (open_summarize_widget Show plugin complete _)
    as [[r plugin'] done]. simpl in *.
  eexists _, _. split_and!; [done|done|]. right. by exists w.
Qed.

(** X17. From the action to the worker. On a decompiler view whose text is
    not empty, with a main widget whose controls can be read and a
    credential that is not empty, and a [Show] that leaves an output area,
    [activate] opens one window and starts one worker in it; the worker
    is made for the model, the language and the credential read from the
    main widget, and for the output of the collector on the text of the
    view, which starts with that text. *)
Theorem activate_starts_worker
    plugin widget vu title primary mw selected_model target_language key te :
  get_current_widget ui = Ok widget →
  get_widget_vdui ui widget = Ok (Some vu) →
  get_widget_title ui widget = Ok title →
  get_clean_pseudocode ida vu = Ok primary →
  primary ≠ "" →
  AIDAPlugin.main_widget plugin = Some mw →
  read_configuration mw = Ok (selected_model, target_language, key) →
  key ≠ "" →
  Show (window_title (title_identifier title)
          (S (length (summarize_windows plugin)))) = Ok (Some te) →
  ∃ complete,
    get_all_related_pseudocode ida pop_index primary = Ok complete
    ∧ startswith complete primary = true
    ∧ let t := {| coro := {| model_name := selected_model;
                             pseudocode := complete;
                             target_language := target_language;
                             api_key := key |} |} in
      activate ui ida pop_index Show plugin
        = Ok (1%Z,
              Plugin (summarize_windows plugin
                        ++ [Widget false (Some te) (Some mw) (Some t)])
                (Some mw),
              [Start t]).
Proof.
  intros Hwidget Hvu Htitle Hprimary Hne%truthy_true Hmw Hread
    Hkey%truthy_true Hshow.
  destruct (helper_log_spec ida pop_index primary) as (Hcomplete & _).
  eexists. split; [done|]. split; [apply prefix_str_app|]. intros t.
  unfold activate. rewrite Hwidget. simpl. rewrite Hvu. simpl.
  unfold activate_body. rewrite Htitle, Hprimary, Hne, Hcomplete.
  unfold open_summarize_widget.
  rewrite length_app, Nat.add_1_r, Hshow. simpl.
  assert (truthy (primary +:+ render (helper_sections ida pop_index primary))
          = true) as ->.
  { destruct primary; [done|]. by rewrite str_app_cons. }
  unfold set_pseudocode. simpl. rewrite Hmw. simpl. rewrite Hread, Hkey.
  done.
Qed.

(** X18. The text of the primary function is made like the text of a
    helper: a name that resolves to a decompiled function gets, as a
    helper, the text that [__get_clean_pseudocode] gives for a view of
    that function; a view without decompiled function gives the empty
    text. *)
Theorem primary_and_helper_text_agree name ea func cfunc :
  get_name_ea ida 0 name = Ok ea →
  ea ≠ BADADDR ida →
  get_func ida ea = Ok (Some func) →
  decompile ida func = Ok (Some cfunc) →
  get_function_pseudocode ida name = get_clean_pseudocode ida (Some cfunc)
  ∧ get_clean_pseudocode ida None = Ok "".
Proof.
  intros Hea Hbad Hfunc Hdec. split; [|done].
  unfold get_function_pseudocode, get_clean_pseudocode.
  rewrite Hea. simpl. destruct (decide _); [done|].
  rewrite Hfunc. simpl. by rewrite Hdec.
Qed.

End Extras.

(** *** Instances *)

Import Fixtures MoreFixtures.

Lemma title_identifier_round_trip_witness :
  title_identifier (Some ("Pseudocode-" +:+ "B2")) = "B2"
  ∧ window_title (title_identifier (Some ("Pseudocode-" +:+ "B2"))) 3
    = "Summarize-" +:+ "B2".
Proof. apply (title_identifier_round_trip "B2" 3); done. Defined.

Lemma activate_returns_one_witness :
  ∃ plugin' done,
    activate demo_ui demo_ida pop_first demo_show fresh_plugin
      = Ok (1%Z, plugin', done)
    ∧ AIDAPlugin.main_widget plugin' = AIDAPlugin.main_widget fresh_plugin
    ∧ (summarize_windows plugin' = summarize_windows fresh_plugin
       ∨ ∃ new_window,
           summarize_windows plugin'
             = summarize_windows fresh_plugin ++ [new_window]).
Proof.
  apply (activate_returns_one demo_ui demo_ida pop_first demo_show
           fresh_plugin () (Some (Some ()))); reflexivity.
Defined.

Lemma activate_starts_worker_witness :
  ∃ complete,
    get_all_related_pseudocode blank_lines_ida pop_first
      ("int f()" +:+ LF +:+ "{" +:+ LF +:+ "}") = Ok complete
    ∧ startswith complete ("int f()" +:+ LF +:+ "{" +:+ LF +:+ "}") = true
    ∧ activate demo_ui blank_lines_ida pop_first demo_show demo_plugin
        = Ok (1%Z,
              Plugin (summarize_windows demo_plugin
                        ++ [Widget false (Some {| plainText := "" |})
                              (AIDAPlugin.main_widget demo_plugin)
                              (Some {| coro :=
                                  {| model_name := "DeepSeek-V3";
                                     pseudocode := complete;
                                     target_language := "Rust";
                                     api_key := "key" |} |})])
                (AIDAPlugin.main_widget demo_plugin),
              [Start {| coro := {| model_name := "DeepSeek-V3";
                                   pseudocode := complete;
                                   target_language := "Rust";
                                   api_key := "key" |} |}]).
Proof.
  apply (activate_starts_worker demo_ui blank_lines_ida pop_first demo_show
           demo_plugin () (Some ()) (Some "Pseudocode-A")
           ("int f()" +:+ LF +:+ "{" +:+ LF +:+ "}")
           {| model_combo_currentText := Ok "DeepSeek-V3";
              lang_combo_currentText := Ok "Rust";
              token_input_text := Ok "key" |}
           "DeepSeek-V3" "Rust" "key" {| plainText := "" |}); done.
Defined.

Lemma primary_and_helper_text_agree_witness :
  get_function_pseudocode demo_ida "sub_2"
    = get_clean_pseudocode demo_ida (Some ())
  ∧ get_clean_pseudocode demo_ida None = Ok "".
Proof.
  apply (primary_and_helper_text_agree demo_ida "sub_2" 4096%Z () ());
    done.
Defined.

End ActivationExtras.

(** ** The request *)

Module DispatcherExtras.
Import Py PyFacts PyMoreFacts AIHandler DispatcherFacts.

(** *** [str.replace] *)

Lemma startswith_other_head c s h old :
  c ≠ h → startswith (String c s) (String h old) = false.
Proof.
  intros Hne. unfold startswith. simpl.
  by destruct (ascii_dec h c) as [->|].
Qed.

Lemma replace_from_skip x old new rest :
  replace_from (String.length x) old new (x +:+ rest)
    = replace_from 0 old new rest.
Proof. induction x as [|c x IH]; [done|]. by rewrite str_app_cons. Qed.

(** Text in which the first character of [old] does not occur is copied. *)
Lemma replace_from_copy h old new a rest :
  all_chars (λ c, negb (Ascii.eqb c h)) a = true →
  replace_from 0 (String h old) new (a +:+ rest)
    = a +:+ replace_from 0 (String h old) new rest.
Proof.
  induction a as [|c a IH]; [done|].
  intros Hca. apply andb_prop in Hca as [Hc Ha]. rewrite !str_app_cons.
  change (replace_from 0 (String h old) new (String c (a +:+ rest)))
    with (if startswith (String c (a +:+ rest)) (String h old)
          then new +:+ replace_from (String.length (String h old) - 1)
                         (String h old) new (a +:+ rest)
          else String c (replace_from 0 (String h old) new (a +:+ rest))).
  rewrite startswith_other_head.
  - by rewrite IH.
  - intros ->. by rewrite Ascii.eqb_refl in Hc.
Qed.

(** An occurrence of [old] is replaced, and the scan goes on behind it. *)
Lemma replace_from_here h old new rest :
  replace_from 0 (String h old) new (String h old +:+ rest)
    = new +:+ replace_from 0 (String h old) new rest.
Proof.
  rewrite str_app_cons.
  change (replace_from 0 (String h old) new (String h (old +:+ rest)))
    with (if startswith (String h (old +:+ rest)) (String h old)
          then new +:+ replace_from (String.length (String h old) - 1)
                         (String h old) new (old +:+ rest)
          else String h (replace_from 0 (String h old) new (old +:+ rest))).
  assert (startswith (String h (old +:+ rest)) (String h old) = true) as ->.
  { apply (prefix_str_app (String h old) rest). }
  replace (String.length (String h old) - 1) with (String.length old)
    by (simpl; lia).
  by rewrite replace_from_skip.
Qed.

Lemma replace_twice a b c lang :
  all_chars (λ c, negb (Ascii.eqb c "[")) a = true →
  all_chars (λ c, negb (Ascii.eqb c "[")) b = true →
  all_chars (λ c, negb (Ascii.eqb c "[")) c = true →
  replace (a +:+ Prompt.placeholder +:+ b +:+ Prompt.placeholder +:+ c)
    Prompt.placeholder lang
    = a +:+ lang +:+ b +:+ lang +:+ c.
Proof.
  intros Ha Hb Hc. unfold replace, Prompt.placeholder.
  cbv iota.
  rewrite replace_from_copy, replace_from_here by done.
  rewrite replace_from_copy, replace_from_here by done.
  rewrite <- (str_app_nil_r c) at 1.
  rewrite replace_from_copy by done. simpl. by rewrite str_app_nil_r.
Qed.

(** *** Prefixes and lower case *)

Lemma startswith_spec s pre :
  startswith s pre = true ↔ ∃ rest, s = pre +:+ rest.
Proof.
  unfold startswith. revert s. induction pre as [|c pre IH]; intros s.
  - split; [by exists s|]. by destruct s.
  - destruct s as [|d s]; simpl.
    + split; [done|]. by intros [rest ?].
    + destruct (ascii_dec c d) as [->|Hne].
      * rewrite IH. split; intros [rest Hrest]; exists rest.
        -- by rewrite str_app_cons, Hrest.
        -- rewrite str_app_cons in Hrest. by injection Hrest.
      * split; [done|]. intros [rest Hrest].
        rewrite str_app_cons in Hrest. by injection Hrest.
Qed.

Lemma lower_app s t : lower (s +:+ t) = lower s +:+ lower t.
Proof.
  induction s as [|c s IH]; [done|].
  rewrite str_app_cons. simpl. by rewrite IH, str_app_cons.
Qed.

Lemma lower_take_str k s : lower (take_str k s) = take_str k (lower s).
Proof.
  revert s. induction k as [|k IH]; intros [|c s]; simpl; try done.
  by rewrite IH.
Qed.

Section Extras.
Variable SYSTEM_PROMPT : string.
Variable service : ChatRequest → res (list string).

Abbreviation process_request := (process_request SYSTEM_PROMPT service).

(** X19. The system instruction that is sent names the target language
    where the prompt has its placeholder: for a prompt with the
    placeholder in two places, as the one of the source, and no other
    opening bracket, the first message of the request is the prompt with
    the target language in both places. *)
Theorem system_message_names_language
    a b c model_name pseudocode target_language api_key sent :
  SYSTEM_PROMPT
    = a +:+ Prompt.placeholder +:+ b +:+ Prompt.placeholder +:+ c →
  all_chars (λ c, negb (Ascii.eqb c "[")) a = true →
  all_chars (λ c, negb (Ascii.eqb c "[")) b = true →
  all_chars (λ c, negb (Ascii.eqb c "[")) c = true →
  startswith (lower model_name) "deepseek" = true →
  ∃ req,
    (process_request model_name pseudocode target_language api_key sent).2
      = sent ++ [req]
    ∧ head (messages req)
      = Some (SystemMessage
                (a +:+ target_language +:+ b +:+ target_language +:+ c)).
Proof.
  intros -> Ha Hb Hc Hmodel. eexists. split.
  - rewrite process_request_sent, Hmodel. done.
  - change (Some (SystemMessage
              (replace
                 (a +:+ Prompt.placeholder +:+ b +:+ Prompt.placeholder
                  +:+ c)
                 Prompt.placeholder target_language))
            = Some (SystemMessage
                      (a +:+ target_language +:+ b +:+ target_language
                       +:+ c))).
    by rewrite replace_twice.
Qed.

(** X20. For a DeepSeek model and a response with at least one choice,
    [process_request] returns the content of the first choice and nothing
    of the others, having sent one request: to the fixed endpoint, with
    the credential and the model name as they were given, temperature 0,
    at most 2048 tokens, top-p 1, and a user message that ends with the
    pseudocode. *)
Theorem first_choice_is_returned
    model_name pseudocode target_language api_key sent content others :
  startswith (lower model_name) "deepseek" = true →
  service (deepseek_request model_name
             (replace SYSTEM_PROMPT "[language_combobox_value]"
                target_language)
             pseudocode api_key target_language)
    = Ok (content :: others) →
  ∃ req user,
    process_request model_name pseudocode target_language api_key sent
      = (Ok (Some content), sent ++ [req])
    ∧ endpoint req = "https://models.inference.ai.azure.com"
    ∧ credential req = api_key
    ∧ model req = model_name
    ∧ (temperature req, max_tokens req, top_p req) = (0, 2048, 1)%Z
    ∧ messages req !! 1 = Some (UserMessage (user +:+ pseudocode)).
Proof.
  intros Hmodel Hservice.
  exists (deepseek_request model_name
            (replace SYSTEM_PROMPT "[language_combobox_value]"
               target_language)
            pseudocode api_key target_language).
  eexists. split_and!; try done.
  - unfold AIHandler.process_request.
    erewrite net_try_except_ok; [done|].
    rewrite try_body_deepseek by done. cbv zeta. by rewrite Hservice.
  - simpl. by rewrite <- !str_app_assoc.
Qed.

(** X21. A request is sent exactly for the model names that begin with
    [deepseek] in any mix of upper and lower case. *)
Theorem model_is_routed_by_prefix
    model_name pseudocode target_language api_key sent :
  (∃ req,
     (process_request model_name pseudocode target_language api_key sent).2
       = sent ++ [req])
  ↔ ∃ family rest, model_name = family +:+ rest ∧ lower family = "deepseek".
Proof.
  rewrite process_request_sent.
  destruct (startswith (lower model_name) "deepseek") eqn:Hmodel.
  - split; [intros _|by eauto].
    apply startswith_spec in Hmodel as [rest Hrest].
    exists (take_str 8 model_name), (drop_str 8 model_name).
    split; [by rewrite take_drop_str|].
    by rewrite lower_take_str, Hrest.
  - split.
    + intros [req Hreq]. apply (f_equal length) in Hreq.
      rewrite length_app in Hreq. simpl in Hreq. lia.
    + intros (family & rest & -> & Hfamily). exfalso.
      rewrite lower_app, Hfamily in Hmodel.
      by rewrite (proj2 (startswith_spec _ _)) in Hmodel by eauto.
Qed.

End Extras.

(** *** Instances *)

Import Fixtures.

Lemma system_message_names_language_witness :
  ∃ req,
    (AIHandler.process_request Prompt.SYSTEM_PROMPT demo_service
       "DeepSeek-V3" "int f();" "Rust" "key" []).2 = [] ++ [req]
    ∧ head (messages req)
      = Some (SystemMessage
                (take_str 151 Prompt.SYSTEM_PROMPT +:+ "Rust"
                 +:+ take_str 731 (drop_str 176 Prompt.SYSTEM_PROMPT)
                 +:+ "Rust" +:+ drop_str 932 Prompt.SYSTEM_PROMPT)).
Proof.
  apply (system_message_names_language Prompt.SYSTEM_PROMPT demo_service
           (take_str 151 Prompt.SYSTEM_PROMPT)
           (take_str 731 (drop_str 176 Prompt.SYSTEM_PROMPT))
           (drop_str 932 Prompt.SYSTEM_PROMPT)
           "DeepSeek-V3" "int f();" "Rust" "key" []);
    vm_compute; reflexivity.
Defined.

Lemma first_choice_is_returned_witness :
  ∃ req user,
    AIHandler.process_request "prompt" demo_service "DeepSeek-V3" "int f();"
      "C++" "key" [] = (Ok (Some "translated"), [] ++ [req])
    ∧ endpoint req = "https://models.inference.ai.azure.com"
    ∧ credential req = "key"
    ∧ model req = "DeepSeek-V3"
    ∧ (temperature req, max_tokens req, top_p req) = (0, 2048, 1)%Z
    ∧ messages req !! 1 = Some (UserMessage (user +:+ "int f();")).
Proof.
  apply (first_choice_is_returned "prompt" demo_service "DeepSeek-V3"
           "int f();" "C++" "key" [] "translated" []); reflexivity.
Defined.

End DispatcherExtras.
